(** * Root-Nyquist Kaiser filter design (liquid-dsp, [src/filter/src/rkaiser.c])

    A shallow embedding of [rkaiser.c] and the properties of its
    bandwidth-correction search.

    - C [float] is IEEE-754 binary32 and C [double] is binary64, both taken
      from the Standard Library's executable specification [SpecFloat]
      (round to nearest, ties to even).  Every operation is rounded to the
      type the C expression has (no excess precision, no fused
      multiply-add), and a comparison with a NaN is false.
    - C [unsigned int] is a [Z] in [0, 2^32) with its wrap-around written out.
    - [exit] ends the run: a computation is an [outcome], either [Returned]
      with the lines printed on stdout, or [Exited] with the exit status
      and the message printed on stderr.
    - The functions the file calls but does not define ([logf], [expf],
      [log10f] of libm, [fir_kaiser_window] and [liquid_filter_isi] of the
      library) are the fields of the class [Collaborators]. *)

From Stdlib Require Import ZArith Zpower List String Bool Lia.
From Stdlib Require Import Floats.SpecFloat.
Import ListNotations.

Local Open Scope Z_scope.

(** ** Binary floating-point formats *)

Declare Scope f32_scope.
Delimit Scope f32_scope with f32.
Declare Scope f64_scope.
Delimit Scope f64_scope with f64.

(** C [float]: 24 bits of precision, exponent of infinity 128. *)
Module F32.
Definition prec : Z := 24.
Definition emax : Z := 128.
Definition t : Type := spec_float.

Definition add : t -> t -> t := SFadd prec emax.
Definition sub : t -> t -> t := SFsub prec emax.
Definition mul : t -> t -> t := SFmul prec emax.
Definition div : t -> t -> t := SFdiv prec emax.
Definition sqrt : t -> t := SFsqrt prec emax.
Definition abs : t -> t := SFabs.
Definition opp : t -> t := SFopp.
Definition ltb : t -> t -> bool := SFltb.
Definition leb : t -> t -> bool := SFleb.
Definition valid : t -> bool := valid_binary prec emax.

(** Conversion of an integer (C: [(float)_k]). *)
Definition of_Z (z : Z) : t := binary_normalize prec emax z 0 false.

(** The literal [n/d f], correctly rounded ([n] and [d] are exact in the
    format, so the rounded quotient is the nearest float of the decimal). *)
Definition dec (n d : Z) : t := div (of_Z n) (of_Z d).

Definition zero : t := S754_zero false.
Definition one : t := Eval vm_compute in of_Z 1.

Definition is_nan (x : t) : bool :=
  match x with S754_nan => true | _ => false end.
End F32.

(** C [double]: 53 bits of precision, exponent of infinity 1024. *)
Module F64.
Definition prec : Z := 53.
Definition emax : Z := 1024.
Definition t : Type := spec_float.

Definition add : t -> t -> t := SFadd prec emax.
Definition sub : t -> t -> t := SFsub prec emax.
Definition mul : t -> t -> t := SFmul prec emax.
Definition div : t -> t -> t := SFdiv prec emax.
Definition opp : t -> t := SFopp.
Definition of_Z (z : Z) : t := binary_normalize prec emax z 0 false.
Definition dec (n d : Z) : t := div (of_Z n) (of_Z d).

(** Promotion [float -> double] (exact: the mantissa is re-aligned). *)
Definition of_f32 (x : F32.t) : t :=
  match x with
  | S754_finite s m e => binary_round prec emax s m e
  | _ => x
  end.

(** Conversion [double -> float] on assignment (rounds to nearest). *)
Definition to_f32 (x : t) : F32.t :=
  match x with
  | S754_finite s m e => binary_round F32.prec F32.emax s m e
  | _ => x
  end.
End F64.

Infix "+" := F32.add : f32_scope.
Infix "-" := F32.sub : f32_scope.
Infix "*" := F32.mul : f32_scope.
Infix "/" := F32.div : f32_scope.
Infix "<?" := F32.ltb : f32_scope.
Infix "<=?" := F32.leb : f32_scope.
Notation "x >? y" := (F32.ltb y x) (only parsing) : f32_scope.
Notation "x >=? y" := (F32.leb y x) (only parsing) : f32_scope.

Infix "+" := F64.add : f64_scope.
Infix "-" := F64.sub : f64_scope.
Infix "*" := F64.mul : f64_scope.


(** A [double] literal stored into a [float] variable ([c0=0.78583556]). *)
Definition f32_of_double_literal (n d : Z) : F32.t := F64.to_f32 (F64.dec n d).

(** ** C [unsigned int] *)

Definition uint32 (z : Z) : Z := z mod 2 ^ 32.

(** ** Runs of the program: stdout, stderr and [exit] *)

(** One line of the diagnostic output, [printf("  %4u : rho=%12.8f,
    isi=%12.6f dB\n", p+1, x_hat, 20*log10f(y_hat))]. *)
Record trace_line : Type := TraceLine {
  tl_iter : Z;
  tl_rho : F32.t;
  tl_isi_dB : F32.t
}.

(** A run either returns a value to its caller or ends the process
    through [exit(status)] after writing [err] on stderr; [out] is what
    was printed on stdout until then. *)
Inductive outcome (A : Type) : Type :=
| Returned (out : list trace_line) (a : A)
| Exited (out : list trace_line) (status : Z) (err : string).
Arguments Returned {A} out a.
Arguments Exited {A} out status err.

Definition ret {A} (a : A) : outcome A := Returned [] a.

Definition bind {A B} (c : outcome A) (f : A -> outcome B) : outcome B :=
  match c with
  | Returned out a =>
      match f a with
      | Returned out' b => Returned (out ++ out') b
      | Exited out' status err => Exited (out ++ out') status err
      end
  | Exited out status err => Exited out status err
  end.

(** [fprintf(stderr, err); exit(status);] *)
Definition die {A} (status : Z) (err : string) : outcome A :=
  Exited [] status err.

Definition printf (lines : list trace_line) : outcome unit := Returned lines tt.

Notation "x <- c ;; k" := (bind c (fun x => k))
  (at level 61, c at next level, right associativity).
Notation "c ;;; k" := (bind c (fun _ => k))
  (at level 61, right associativity).

Definition terminated {A} (c : outcome A) : bool :=
  match c with Exited _ _ _ => true | Returned _ _ => false end.

Definition nl : string := String (Ascii.ascii_of_nat 10) EmptyString.

(** ** The functions [rkaiser.c] calls but does not define *)

(** The three functions of libm, and the two functions of the library
    that are declared in [liquid.internal.h] and defined in other files:
    the tap generator and the measure of inter-symbol interference.  They
    are deterministic functions of their arguments; the model takes them
    as parameters. *)
Class Collaborators : Type := {
  (** libm *)
  logf : F32.t -> F32.t;
  expf : F32.t -> F32.t;
  log10f : F32.t -> F32.t;
  (** [fir_kaiser_window(n, fc, As, mu, h)]: the [n] taps written to [h] *)
  fir_kaiser_window : Z -> F32.t -> F32.t -> F32.t -> list F32.t;
  (** [liquid_filter_isi(h, k, m, &mse, &max)]: the pair [(mse, max)] *)
  liquid_filter_isi : list F32.t -> Z -> Z -> F32.t * F32.t
}.

(** ** Literals of the source *)

Module Lit.
Definition f0_9 : F32.t := Eval vm_compute in F32.dec 9 10.
Definition f1_1 : F32.t := Eval vm_compute in F32.dec 11 10.
Definition f0_5 : F32.t := Eval vm_compute in F32.dec 5 10.
Definition f0_999 : F32.t := Eval vm_compute in F32.dec 999 1000.
Definition f1e_9 : F32.t := Eval vm_compute in F32.dec 1 1000000000.
Definition f14_26 : F32.t := Eval vm_compute in F32.dec 1426 100.
Definition f7_95 : F32.t := Eval vm_compute in F32.dec 795 100.
Definition fm1 : F32.t := Eval vm_compute in F32.of_Z (-1).

(** rows of the [switch] in [rkaiser_approximate_rho] *)
Definition row (c0 c1 c2 : Z) : F32.t * F32.t * F32.t :=
  (f32_of_double_literal c0 100000000,
   f32_of_double_literal c1 100000000,
   f32_of_double_literal c2 100000000).
Definition row1 := Eval vm_compute in row 78583556 5439958 37818679.
Definition row2 := Eval vm_compute in row 82194722 6170731 16362774.
Definition row3 := Eval vm_compute in row 84686762 7475776 5263769.
Definition row4 := Eval vm_compute in row 86538726 7374587 3491642.
Definition row5 := Eval vm_compute in row 87861007 6981039 3553645.
Definition row6 := Eval vm_compute in row 88901162 6708569 3459680.

(** [double] constants of the [default:] branch *)
Definition d0_057918 : F64.t := Eval vm_compute in F64.dec 57918 1000000.
Definition d0_784313 : F64.t := Eval vm_compute in F64.dec 784313 1000000.
Definition d0_0099427 : F64.t := Eval vm_compute in F64.dec 99427 10000000.
Definition d0_0447250 : F64.t := Eval vm_compute in F64.dec 447250 10000000.
Definition d0_0026685 : F64.t := Eval vm_compute in F64.dec 26685 10000000.
Definition d0_0835030 : F64.t := Eval vm_compute in F64.dec 835030 10000000.
Definition d0_03373 : F64.t := Eval vm_compute in F64.dec 3373 100000.
Definition d0_30382 : F64.t := Eval vm_compute in F64.dec 30382 100000.
Definition d0_19451 : F64.t := Eval vm_compute in F64.dec 19451 100000.
Definition d0_56171 : F64.t := Eval vm_compute in F64.dec 56171 100000.
End Lit.

(** ** The program *)

Section Design.
Context {env : Collaborators}.

Local Open Scope f32_scope.

(** The filter buffer [_h] is a list; [_h[i]] reads entry [i] (the source
    only reads entries below the filter length, which the tap generator
    has written). *)
Definition tap (h : list F32.t) (i : nat) : F32.t := nth i h F32.zero.

(** [unsigned int n = 2*_k*_m+1;] *)
Definition filter_length (k m : Z) : Z := uint32 (2 * k * m + 1).

(** [for (i=0; i<n; i++) e2 += _h[i]*_h[i];] starting from [e2 = 0.0f] *)
Definition energy (n : Z) (h : list F32.t) : F32.t :=
  fold_left (fun e2 i => e2 + tap h i * tap h i)
            (seq 0 (Z.to_nat n)) F32.zero.

(** [for (i=0; i<n; i++) _h[i] *= sqrtf(_k/e2);] *)
Definition normalize (k n : Z) (h : list F32.t) : list F32.t :=
  let e2 := energy n h in
  map (fun i => tap h i * F32.sqrt (F32.of_Z k / e2))
      (seq 0 (Z.to_nat n)).

(** *** [rkaiser_approximate_rho] *)

(** The [switch (_m)] statement: the coefficients [(c0, c1, c2)]. *)
Definition rkaiser_coefficients (m : Z) : F32.t * F32.t * F32.t :=
  match m with
  | 1 => Lit.row1
  | 2 => Lit.row2
  | 3 => Lit.row3
  | 4 => Lit.row4
  | 5 => Lit.row5
  | 6 => Lit.row6
  | _ =>
      let md := F64.of_Z m in
      let c0 :=
        (Lit.d0_057918 * F64.of_f32 (logf (F32.of_Z m)) + Lit.d0_784313)%f64 in
      let c1 :=
        (if (m <=? 3)%Z
         then Lit.d0_0099427 * md + Lit.d0_0447250
         else F64.opp Lit.d0_0026685 * md + Lit.d0_0835030)%f64 in
      let c2 :=
        (Lit.d0_03373 +
         F64.of_f32
           (expf (F64.to_f32
                    (F64.opp Lit.d0_30382 * md * md - Lit.d0_19451 * md
                     - Lit.d0_56171))))%f64 in
      (F64.to_f32 c0, F64.to_f32 c1, F64.to_f32 c2)
  end.

(** [if (c2 >= _beta) c2 = 0.999f*_beta;] *)
Definition clamp_c2 (c2 beta : F32.t) : F32.t :=
  if c2 >=? beta then Lit.f0_999 * beta else c2.

Definition rkaiser_c2 (m : Z) (beta : F32.t) : F32.t :=
  let '(_, _, c2) := rkaiser_coefficients m in
  clamp_c2 c2 beta.

(** The argument [_beta - c2] of the logarithm. *)
Definition rkaiser_log_argument (m : Z) (beta : F32.t) : F32.t :=
  beta - rkaiser_c2 m beta.

(** [rho_hat = c0 + c1*logf(_beta - c2)], before it is clamped. *)
Definition rkaiser_rho_unclamped (m : Z) (beta : F32.t) : F32.t :=
  let '(c0, c1, _) := rkaiser_coefficients m in
  c0 + c1 * logf (rkaiser_log_argument m beta).

(** [if (rho_hat < 0.0f) rho_hat = 0.0f; else if (rho_hat > 1.0f)
    rho_hat = 1.0f;] *)
Definition clamp01 (rho_hat : F32.t) : F32.t :=
  if rho_hat <? F32.zero then F32.zero
  else if rho_hat >? F32.one then F32.one
  else rho_hat.

Definition rkaiser_approximate_rho (m : Z) (beta : F32.t) : outcome F32.t :=
  if (m <? 1)%Z then
    die 0 ("error: rkaiser_approximate_rho(): m must be greater than 0" ++ nl)%string
  else if (beta <? F32.zero) || (beta >? F32.one) then
    die 0 ("error: rkaiser_approximate_rho(): beta must be in [0,1]" ++ nl)%string
  else
    ret (clamp01 (rkaiser_rho_unclamped m beta)).

(** *** [design_rkaiser_filter_internal_isi] *)

(** The cut-off frequency and the side-lobe attenuation handed to the tap
    generator for a bandwidth correction [rho]. *)
Definition kaiser_As (k m : Z) (beta rho : F32.t) : F32.t :=
  let n := filter_length k m in
  let gamma := rho * beta in
  let del := gamma / F32.of_Z k in
  Lit.f14_26 * del * F32.of_Z n + Lit.f7_95.

Definition kaiser_fc (k : Z) (beta rho : F32.t) : F32.t :=
  let gamma := rho * beta in
  (F32.of_Z 1 + beta - gamma) / F32.of_Z k.

(** The taps [fir_kaiser_window(n,fc,As,_dt,_h)] leaves in the buffer. *)
Definition kaiser_taps (k m : Z) (beta dt rho : F32.t) : list F32.t :=
  fir_kaiser_window (filter_length k m) (kaiser_fc k beta rho)
                    (kaiser_As k m beta rho) dt.

(** Returns [isi_mse] and the new contents of the buffer [_h]. *)
Definition design_rkaiser_filter_internal_isi
           (k m : Z) (beta dt rho : F32.t) : F32.t * list F32.t :=
  let h := kaiser_taps k m beta dt rho in
  let '(isi_mse, isi_max) := liquid_filter_isi h k m in
  (isi_mse, h).

(** *** The parabolic search of [design_rkaiser_filter_internal] *)

(** The variables that live across iterations of the [for] loop. *)
Record search_state : Type := SearchState {
  x0 : F32.t; y0 : F32.t;
  x2 : F32.t; y2 : F32.t;
  x_hat : F32.t;
  p : Z;
  buf : list F32.t
}.

Definition pmax : Z := 10.

(** [x1 = 0.5f*(x0 + x2);] *)
Definition midpoint (st : search_state) : F32.t :=
  Lit.f0_5 * (x0 st + x2 st).

(** numerator [t0] and denominator [t1] of the parabola fit *)
Definition numerator (ax0 ay0 ax1 ay1 ax2 ay2 : F32.t) : F32.t :=
  ay0 * (ax1 * ax1 - ax2 * ax2) +
  ay1 * (ax2 * ax2 - ax0 * ax0) +
  ay2 * (ax0 * ax0 - ax1 * ax1).

Definition denominator (ax0 ay0 ax1 ay1 ax2 ay2 : F32.t) : F32.t :=
  ay0 * (ax1 - ax2) +
  ay1 * (ax2 - ax0) +
  ay2 * (ax0 - ax1).

(** The denominator computed in the iteration that starts in [st]. *)
Definition round_denominator (k m : Z) (beta dt : F32.t)
           (st : search_state) : F32.t :=
  let x1 := midpoint st in
  let y1 := fst (design_rkaiser_filter_internal_isi k m beta dt x1) in
  denominator (x0 st) (y0 st) x1 y1 (x2 st) (y2 st).

(** [if (fabsf(t1) < 1e-9f) break;] *)
Definition breaks (k m : Z) (beta dt : F32.t) (st : search_state) : bool :=
  F32.abs (round_denominator k m beta dt st) <? Lit.f1e_9.

(** The objective the search minimises. *)
Definition objective (k m : Z) (beta dt rho : F32.t) : F32.t :=
  fst (design_rkaiser_filter_internal_isi k m beta dt rho).

(** The vertex computed in the round that starts in [st]:
    [x_hat = 0.5f * t0 / t1]. *)
Definition round_vertex (k m : Z) (beta dt : F32.t) (st : search_state)
  : F32.t :=
  let x1 := midpoint st in
  let y1 := objective k m beta dt x1 in
  Lit.f0_5 * numerator (x0 st) (y0 st) x1 y1 (x2 st) (y2 st)
  / denominator (x0 st) (y0 st) x1 y1 (x2 st) (y2 st).

Inductive round_result : Type :=
| Break (st : search_state)
| Continue (st : search_state) (line : trace_line).

(** One pass through the body of the [for] loop. *)
Definition search_round (k m : Z) (beta dt : F32.t)
           (st : search_state) : round_result :=
  let x1 := midpoint st in
  let '(y1, h) := design_rkaiser_filter_internal_isi k m beta dt x1 in
  let t0 := numerator (x0 st) (y0 st) x1 y1 (x2 st) (y2 st) in
  let t1 := denominator (x0 st) (y0 st) x1 y1 (x2 st) (y2 st) in
  if F32.abs t1 <? Lit.f1e_9 then
    Break (SearchState (x0 st) (y0 st) (x2 st) (y2 st) (x_hat st) (p st) h)
  else
    let x_hat' := Lit.f0_5 * t0 / t1 in
    let '(y_hat, h') :=
      design_rkaiser_filter_internal_isi k m beta dt x_hat' in
    let line := TraceLine (p st + 1) x_hat' (F32.of_Z 20 * log10f y_hat) in
    if x_hat' >? x1 then
      Continue (SearchState x1 y1 (x2 st) (y2 st) x_hat' (p st + 1) h') line
    else
      Continue (SearchState (x0 st) (y0 st) x1 y1 x_hat' (p st + 1) h') line.

(** [for (p=0; p<pmax; p++) { ... }]: [rounds] is [pmax - p]. *)
Fixpoint search_loop (k m : Z) (beta dt : F32.t) (rounds : nat)
         (st : search_state) : search_state * list trace_line :=
  match rounds with
  | O => (st, [])
  | S rounds' =>
      match search_round k m beta dt st with
      | Break st' => (st', [])
      | Continue st' line =>
          let '(st'', out) := search_loop k m beta dt rounds' st' in
          (st'', line :: out)
      end
  end.

(** The variables on entry to the loop. *)
Definition search_init (k m : Z) (beta dt rho_hat : F32.t) : search_state :=
  let ax0 := rho_hat * Lit.f0_9 in
  let ax2 := rho_hat * Lit.f1_1 in
  let '(ay0, _) := design_rkaiser_filter_internal_isi k m beta dt ax0 in
  let '(ay2, h) := design_rkaiser_filter_internal_isi k m beta dt ax2 in
  SearchState ax0 ay0 ax2 ay2 rho_hat 0 h.

Definition rkaiser_search (k m : Z) (beta dt rho_hat : F32.t)
  : search_state * list trace_line :=
  search_loop k m beta dt (Z.to_nat pmax) (search_init k m beta dt rho_hat).

(** *** The design functions *)

Record design : Type := Design { taps : list F32.t; rho : F32.t }.

Definition design_rkaiser_filter_internal
           (k m : Z) (beta dt : F32.t) : outcome design :=
  if (k <? 1)%Z then
    die 1 ("error: design_rkaiser_filter_internal(): k must be greater than 0" ++ nl)%string
  else if (m <? 1)%Z then
    die 1 ("error: design_rkaiser_filter_internal(): m must be greater than 0" ++ nl)%string
  else if (beta <? F32.zero) || (beta >? F32.one) then
    die 1 ("error: design_rkaiser_filter_internal(): beta must be in [0,1]" ++ nl)%string
  else
    let n := filter_length k m in
    rho_hat <- rkaiser_approximate_rho m beta ;;
    let '(st, out) := rkaiser_search k m beta dt rho_hat in
    printf out ;;;
    let '(y_hat, h) :=
      design_rkaiser_filter_internal_isi k m beta dt (x_hat st) in
    ret (Design (normalize k n h) rho_hat).

Definition design_rkaiser_filter
           (k m : Z) (beta dt : F32.t) : outcome (list F32.t) :=
  if (k <? 2)%Z then
    die 1 ("error: design_rkaiser_filter(), k must be at least 2" ++ nl)%string
  else if (m <? 1)%Z then
    die 1 ("error: design_rkaiser_filter(), m must be at least 1" ++ nl)%string
  else if (beta <=? F32.zero) || (beta >=? F32.one) then
    die 1 ("error: design_rkaiser_filter(), beta must be in (0,1)" ++ nl)%string
  else if (dt <? Lit.fm1) || (dt >? F32.one) then
    die 1 ("error: design_rkaiser_filter(), dt must be in [-1,1]" ++ nl)%string
  else
    d <- design_rkaiser_filter_internal k m beta dt ;;
    ret (taps d).

Definition design_arkaiser_filter
           (k m : Z) (beta dt : F32.t) : outcome (list F32.t) :=
  if (k <? 2)%Z then
    die 1 ("error: design_arkaiser_filter(), k must be at least 2" ++ nl)%string
  else if (m <? 1)%Z then
    die 1 ("error: design_arkaiser_filter(), m must be at least 1" ++ nl)%string
  else if (beta <=? F32.zero) || (beta >=? F32.one) then
    die 1 ("error: design_arkaiser_filter(), beta must be in (0,1)" ++ nl)%string
  else if (dt <? Lit.fm1) || (dt >? F32.one) then
    die 1 ("error: design_arkaiser_filter(), dt must be in [-1,1]" ++ nl)%string
  else
    rho_hat <- rkaiser_approximate_rho m beta ;;
    let gamma_hat := rho_hat * beta in
    let n := filter_length k m in
    let del := gamma_hat / F32.of_Z k in
    let As := Lit.f14_26 * del * F32.of_Z n + Lit.f7_95 in
    let fc := (F32.of_Z 1 + beta - gamma_hat) / F32.of_Z k in
    let h := fir_kaiser_window n fc As dt in
    ret (normalize k n h).

End Design.

(** ** A concrete instance of the collaborators

    The theorems below hold for every instance of [Collaborators]; this one
    makes the design executable, so that runs can be evaluated on concrete
    inputs.  Its libm functions are series approximations computed in
    binary32; its tap generator is a Kaiser-windowed sinc and its measure
    of interference the auto-correlation of the taps at the symbol
    instants. *)

Module Sample.
Local Open Scope f32_scope.

Definition f (z : Z) : F32.t := F32.of_Z z.

Definition pi : F32.t := Eval vm_compute in F32.dec 3141593 1000000.
Definition ln2 : F32.t := Eval vm_compute in F32.dec 6931472 10000000.
Definition sqrt_half : F32.t := Eval vm_compute in F32.dec 7071068 10000000.
Definition log10_e : F32.t := Eval vm_compute in F32.dec 4342945 10000000.

(** The integer nearest to [x] (halves away from zero); 0 when [x] is not
    finite. *)
Definition nearest_Z (x : F32.t) : Z :=
  match x with
  | S754_finite s mx ex =>
      let v := if (0 <=? ex)%Z then (Z.pos mx * 2 ^ ex)%Z
               else ((Z.pos mx + 2 ^ (- ex - 1)) / 2 ^ (- ex))%Z in
      if s then (- v)%Z else v
  | _ => 0%Z
  end.

(** [ln x = e ln 2 + ln fr] for [x = fr 2^e] with [fr] between
    [sqrt(1/2)] and [sqrt 2]; [ln fr = 2 z (1 + z^2/3 + z^4/5 + z^6/7 +
    z^8/9)] for [z = (fr-1)/(fr+1)]; [ln 0 = -inf]. *)
Definition logf (x : F32.t) : F32.t :=
  match x with
  | S754_nan => S754_nan
  | S754_zero _ => S754_infinity true
  | S754_infinity s => if s then S754_nan else x
  | S754_finite true _ _ => S754_nan
  | S754_finite false _ _ =>
      let '(fr0, e0) := SFfrexp F32.prec F32.emax x in
      let '(fr, e) := if fr0 <? sqrt_half then (f 2 * fr0, (e0 - 1)%Z)
                      else (fr0, e0) in
      let z := (fr - f 1) / (fr + f 1) in
      let z2 := z * z in
      let q := f 1 / f 7 + z2 / f 9 in
      let q := f 1 / f 5 + z2 * q in
      let q := f 1 / f 3 + z2 * q in
      let q := f 1 + z2 * q in
      f e * ln2 + f 2 * z * q
  end.

(** [exp x = 2^n exp r] for [x = n ln 2 + r], with the series of [exp r]
    up to [r^7/7!]; 0 below -200 and infinite above 200. *)
Definition expf (x : F32.t) : F32.t :=
  if F32.is_nan x then x
  else if x <? f (-200) then F32.zero
  else if x >? f 200 then S754_infinity false
  else
    let n := nearest_Z (x / ln2) in
    let r := x - f n * ln2 in
    let q :=
      fold_left (fun q d => f 1 + r / f d * q) [6; 5; 4; 3; 2; 1]%Z
                (f 1 + r / f 7) in
    SFldexp F32.prec F32.emax q n.

Definition log10f (x : F32.t) : F32.t := logf x * log10_e.

Definition powf (x y : F32.t) : F32.t := expf (y * logf x).

(** [sin (pi x)]: [x] is reduced by the nearest integer [n], and the
    series of the sine is taken up to the term of degree 11. *)
Definition sinpi (x : F32.t) : F32.t :=
  let n := nearest_Z x in
  let y := pi * (x - f n) in
  let y2 := y * y in
  let q :=
    fold_left (fun q d => f 1 - y2 / f d * q) [72; 42; 20; 6]%Z
              (f 1 - y2 / f 110) in
  if Z.even n then y * q else F32.opp (y * q).

Definition sincf (x : F32.t) : F32.t :=
  match x with
  | S754_zero _ => f 1
  | _ => sinpi x / (pi * x)
  end.

(** The modified Bessel function [I0 z = sum ((z/2)^k / k!)^2], 21 terms. *)
Definition besseli0 (z : F32.t) : F32.t :=
  snd (fold_left
         (fun '(t, s) k =>
            let t' := t * (Lit.f0_5 * z) / f k in (t', s + t' * t'))
         (map Z.of_nat (seq 1 20)) (f 1, f 1)).

(** The shape parameter of the Kaiser window for a side-lobe attenuation
    of [As] dB. *)
Definition kaiser_beta_As (As : F32.t) : F32.t :=
  let a := F32.abs As in
  if a >? f 50 then F32.dec 1102 10000 * (a - F32.dec 87 10)
  else if a >? f 21 then
    F32.dec 5842 10000 * powf (a - f 21) (F32.dec 4 10)
    + F32.dec 7886 100000 * (a - f 21)
  else F32.zero.

(** Modelled from the spec: [synthesizeKaiserTaps(length, cutoff,
    attenuation_dB, fractional_delay) -> taps[length]], the deterministic
    windowed-sinc low-pass prototype whose centre is shifted by the
    fractional delay ([fir_kaiser_window] is not part of the source file).
    Tap [i], at [t = i - (n-1)/2 + mu], is [sinc (fc t)] times the Kaiser
    window [I0 (beta sqrt (1 - (2t/n)^2)) / I0 beta]. *)
Definition fir_kaiser_window (n : Z) (fc As mu : F32.t) : list F32.t :=
  let beta := kaiser_beta_As As in
  let i0_beta := besseli0 beta in
  let half := f (n - 1)%Z / f 2 in
  map (fun i : nat =>
         let t := f (Z.of_nat i) - half + mu in
         let h1 := sincf (fc * t) in
         let r := f 2 * t / f n in
         let q := f 1 - r * r in
         let q := if q <? F32.zero then F32.zero else q in
         let h2 := besseli0 (beta * F32.sqrt q) / i0_beta in
         h1 * h2)
      (seq 0 (Z.to_nat n)).

(** Auto-correlation of the taps at [lag]. *)
Definition autocorr (n : Z) (h : list F32.t) (lag : Z) : F32.t :=
  fold_left (fun a i => a + nth i h F32.zero * nth (i + Z.to_nat lag) h F32.zero)
            (seq 0 (Z.to_nat (n - lag)%Z)) F32.zero.

(** Modelled from the spec: [evaluateISI(taps, oversampling, delay) ->
    {mse, max}], the residual inter-symbol interference of the
    matched-filter pair built from the taps, sampled at the symbol-spaced
    instants ([liquid_filter_isi] is not part of the source file): the
    auto-correlation at the lags [k, 2k, ..., 2mk] relative to lag 0, as a
    root mean square and as a maximum. *)
Definition liquid_filter_isi (h : list F32.t) (k m : Z) : F32.t * F32.t :=
  let n := (2 * k * m + 1)%Z in
  let rxx0 := autocorr n h 0 in
  let '(acc, mx) :=
    fold_left
      (fun '(acc, mx) j =>
         let e := F32.abs (autocorr n h (Z.of_nat j * k)%Z / rxx0) in
         (acc + e * e, if (j =? 1)%nat || (e >? mx) then e else mx))
      (seq 1 (Z.to_nat (2 * m)%Z)) (F32.zero, F32.zero) in
  (F32.sqrt (acc / f (2 * m)%Z), mx).

Definition env : Collaborators :=
  Build_Collaborators logf expf log10f fir_kaiser_window liquid_filter_isi.

(** Concrete arguments: [beta = 0.3f], [beta = 0.2f], [dt = 0.0f]. *)
Definition beta_0_3 : F32.t := Eval vm_compute in F32.dec 3 10.
Definition beta_0_2 : F32.t := Eval vm_compute in F32.dec 2 10.
Definition dt_0 : F32.t := F32.zero.
End Sample.


(** ** Vocabulary of the statements *)

(** [0 <= x <= 1] as the comparisons of the format decide it (false on NaN). *)
Definition in_unit_interval (x : F32.t) : bool :=
  (F32.zero <=? x)%f32 && (x <=? F32.one)%f32.

(** The inputs each entry point turns away. *)
Definition rejected_public (k m : Z) (beta dt : F32.t) : Prop :=
  k < 2 \/ m < 1 \/
  (beta <=? F32.zero)%f32 = true \/ (beta >=? F32.one)%f32 = true \/
  (dt <? Lit.fm1)%f32 = true \/ (dt >? F32.one)%f32 = true.

Definition rejected_internal (k m : Z) (beta : F32.t) : Prop :=
  k < 1 \/ m < 1 \/
  (beta <? F32.zero)%f32 = true \/ (beta >? F32.one)%f32 = true.

Definition rejected_estimate (m : Z) (beta : F32.t) : Prop :=
  m < 1 \/ (beta <? F32.zero)%f32 = true \/ (beta >? F32.one)%f32 = true.

(** The inputs [design_rkaiser_filter] and [design_arkaiser_filter] let
    through: every test of their validation chain fails. *)
Definition accepted_public (k m : Z) (beta dt : F32.t) : Prop :=
  2 <= k /\ 1 <= m /\
  (beta <=? F32.zero)%f32 = false /\ (beta >=? F32.one)%f32 = false /\
  (dt <? Lit.fm1)%f32 = false /\ (dt >? F32.one)%f32 = false.

Definition accepted_internal (k m : Z) (beta : F32.t) : Prop :=
  1 <= k /\ 1 <= m /\
  (beta <? F32.zero)%f32 = false /\ (beta >? F32.one)%f32 = false.



(** [x] is a zero, a finite number or an infinity of sign [s]. *)
Definition signed (s : bool) (x : spec_float) : Prop :=
  match x with
  | S754_zero s' | S754_infinity s' | S754_finite s' _ _ => s' = s
  | S754_nan => False
  end.

Definition nonzero (x : spec_float) : Prop :=
  match x with S754_zero _ => False | _ => True end.

(** The smallest normal number, [2^-126], and the test run over the
    subnormal numbers with a mantissa of at most 1000. *)
Definition min_normal : F32.t := S754_finite false 8388608 (-149).

Definition small_subnormal_ok (q : positive) : bool :=
  let beta := S754_finite false q (-149) in
  (F32.zero <=? beta - Lit.f0_999 * beta)%f32.

(** The coefficients of [rkaiser_approximate_rho] are numbers: [c0] is
    finite, [c1] is finite and not zero, [c2] is a valid float and not NaN. *)
Definition is_finite (x : F32.t) : bool :=
  match x with S754_finite _ _ _ | S754_zero _ => true | _ => false end.

Definition is_finite_nonzero (x : F32.t) : bool :=
  match x with S754_finite _ _ _ => true | _ => false end.

Definition coefficients_are_numbers {env : Collaborators} (m : Z) : bool :=
  let '(c0, c1, c2) := rkaiser_coefficients m in
  is_finite c0 && is_finite_nonzero c1 && F32.valid c2
  && negb (F32.is_nan c2).

(** A zero of either sign. *)
Definition is_zero (x : F32.t) : bool :=
  match x with S754_zero _ => true | _ => false end.

(** [x] is a zero, a positive finite number whose exponent is at least
    [-149], or [+inf]; [x] is such a positive finite number. *)
Definition not_negative (x : F32.t) : Prop :=
  match x with
  | S754_zero _ => True
  | S754_finite s _ e => s = false /\ -149 <= e
  | S754_infinity s => s = false
  | S754_nan => False
  end.

Definition is_positive_finite (x : F32.t) : Prop :=
  match x with
  | S754_finite s _ e => s = false /\ -149 <= e
  | _ => False
  end.

(** The line read where the output has none. *)
Definition no_line : trace_line := TraceLine 0 F32.zero F32.zero.

(** The variables a pass through the body of the loop leaves, whether it
    ends in the [break] or not. *)
Definition state_of (r : round_result) : search_state :=
  match r with Break st => st | Continue st _ => st end.

(** ** Properties *)

(** *** The rounding of [SpecFloat] *)

Section Rounding.
Variables prec emax : Z.

Lemma digits2_pos_bounds (q : positive) :
  2 ^ (Z.pos (digits2_pos q) - 1) <= Z.pos q < 2 ^ Z.pos (digits2_pos q).
Proof.
  induction q as [q IH|q IH|]; cbn [digits2_pos].
  - rewrite Pos2Z.inj_succ.
    replace (Z.succ (Z.pos (digits2_pos q)) - 1)
      with (Z.succ (Z.pos (digits2_pos q) - 1)) by lia.
    rewrite !Z.pow_succ_r by lia. lia.
  - rewrite Pos2Z.inj_succ.
    replace (Z.succ (Z.pos (digits2_pos q)) - 1)
      with (Z.succ (Z.pos (digits2_pos q) - 1)) by lia.
    rewrite !Z.pow_succ_r by lia. lia.
  - simpl. lia.
Qed.

Lemma shr_1_m (mrs : shr_record) :
  0 <= shr_m mrs -> shr_m (shr_1 mrs) = shr_m mrs / 2.
Proof.
  destruct mrs as [mz r s]. cbn [shr_m]. intros H.
  destruct mz as [|[q|q|]|q]; cbn [shr_1 shr_m];
    try rewrite Pos2Z.inj_xI; try rewrite Pos2Z.inj_xO;
    try (apply Z.div_unique with (r := 1); lia);
    try (apply Z.div_unique with (r := 0); lia); lia.
Qed.

Lemma iter_shr_1_m (n : positive) : forall mrs,
  0 <= shr_m mrs ->
  shr_m (iter_pos shr_1 n mrs) = shr_m mrs / 2 ^ Z.pos n.
Proof.
  induction n as [n IH|n IH|]; intros mrs H; cbn [iter_pos].
  - assert (H1 : 0 <= shr_m (shr_1 mrs))
      by (rewrite shr_1_m by assumption; apply Z.div_pos; lia).
    assert (H2 : 0 <= shr_m (iter_pos shr_1 n (shr_1 mrs)))
      by (rewrite IH by assumption; apply Z.div_pos; lia).
    rewrite !IH, shr_1_m by assumption.
    rewrite !Z.div_div by lia.
    rewrite <- Z.pow_add_r by lia.
    replace 2 with (2 ^ 1) at 1 by reflexivity.
    rewrite <- Z.pow_add_r by lia. do 2 f_equal. lia.
  - assert (H2 : 0 <= shr_m (iter_pos shr_1 n mrs))
      by (rewrite IH by assumption; apply Z.div_pos; lia).
    rewrite !IH by assumption.
    rewrite !Z.div_div by lia.
    rewrite <- Z.pow_add_r by lia. do 2 f_equal. lia.
  - rewrite shr_1_m by assumption. reflexivity.
Qed.

Lemma shr_spec (mrs : shr_record) (e n : Z) :
  0 <= shr_m mrs ->
  shr_m (fst (shr mrs e n)) = shr_m mrs / 2 ^ Z.max 0 n /\
  snd (shr mrs e n) = e + Z.max 0 n.
Proof.
  intros H. destruct n as [|n|n]; cbn [shr fst snd].
  - rewrite Z.max_id, Z.div_1_r. lia.
  - rewrite Z.max_r by lia. split; [now apply iter_shr_1_m|reflexivity].
  - rewrite Z.max_l by lia. rewrite Z.div_1_r. lia.
Qed.

Lemma shr_m_of_loc (mz : Z) (l : location) :
  shr_m (shr_record_of_loc mz l) = mz.
Proof. destruct l as [|[]]; reflexivity. Qed.

Lemma round_nearest_even_bounds (mz : Z) (l : location) :
  mz <= round_nearest_even mz l <= mz + 1.
Proof.
  destruct l as [|[]]; cbn [round_nearest_even]; try lia.
  destruct (Z.even mz); lia.
Qed.

(** The two shifts and the rounding of [binary_round_aux], named. *)
Lemma binary_round_aux_spec (s : bool) (mx ex : Z) (l : location) :
  0 < mx ->
  let s1 := Z.max 0 (fexp prec emax (Zdigits2 mx + ex) - ex) in
  exists m1 m2 s2,
    mx / 2 ^ s1 <= m1 <= mx / 2 ^ s1 + 1 /\
    s2 = Z.max 0 (fexp prec emax (Zdigits2 m1 + (ex + s1)) - (ex + s1)) /\
    m2 = m1 / 2 ^ s2 /\
    binary_round_aux prec emax s mx ex l =
    match m2 with
    | Z0 => S754_zero s
    | Zpos q =>
        if ex + s1 + s2 <=? emax - prec
        then S754_finite s q (ex + s1 + s2)
        else S754_infinity s
    | Zneg _ => S754_nan
    end.
Proof.
  intros Hmx s1. unfold binary_round_aux, shr_fexp.
  destruct (shr_spec (shr_record_of_loc mx l) ex
              (fexp prec emax (Zdigits2 mx + ex) - ex)) as [A1 A2];
    [rewrite shr_m_of_loc; lia|].
  fold s1 in A1, A2. rewrite shr_m_of_loc in A1.
  destruct (shr (shr_record_of_loc mx l) ex
              (fexp prec emax (Zdigits2 mx + ex) - ex)) as [mrs1 e1].
  cbn [fst snd] in A1, A2. subst e1.
  set (m1 := round_nearest_even (shr_m mrs1) (loc_of_shr_record mrs1)).
  pose proof (round_nearest_even_bounds (shr_m mrs1) (loc_of_shr_record mrs1))
    as Hr. fold m1 in Hr. rewrite A1 in Hr.
  assert (H0 : 0 <= mx / 2 ^ s1) by (apply Z.div_pos; lia).
  destruct (shr_spec (shr_record_of_loc m1 loc_Exact) (ex + s1)
              (fexp prec emax (Zdigits2 m1 + (ex + s1)) - (ex + s1)))
    as [B1 B2]; [rewrite shr_m_of_loc; lia|].
  rewrite shr_m_of_loc in B1.
  destruct (shr (shr_record_of_loc m1 loc_Exact) (ex + s1)
              (fexp prec emax (Zdigits2 m1 + (ex + s1)) - (ex + s1)))
    as [mrs2 e2].
  cbn [fst snd] in B1, B2. subst e2.
  exists m1, (shr_m mrs2). eexists.
  split; [exact Hr|]. split; [reflexivity|]. split; [exact B1|].
  rewrite Z.add_assoc. reflexivity.
Qed.

End Rounding.

(** *** Rounding in binary32 *)

Lemma fexp32 (e : Z) : fexp F32.prec F32.emax e = Z.max (e - 24) (-149).
Proof. reflexivity. Qed.

Lemma binary_round_aux_signed (s : bool) (q : positive) (ex : Z) (l : location) :
  signed s (binary_round_aux F32.prec F32.emax s (Z.pos q) ex l).
Proof.
  destruct (binary_round_aux_spec F32.prec F32.emax s (Z.pos q) ex l)
    as (m1 & m2 & s2 & Hm1 & Hs2 & Hm2 & ->); [lia|].
  set (s1 := Z.max 0 _) in *.
  assert (0 <= Z.pos q / 2 ^ s1) by (apply Z.div_pos; lia).
  assert (0 <= m2) by (subst m2; apply Z.div_pos; lia).
  destruct m2 as [|q2|q2]; [reflexivity| |lia].
  destruct (_ <=? _); reflexivity.
Qed.

(** Dividing out the excess digits of a positive number leaves it positive. *)
Lemma excess_digits_div (z e : Z) :
  0 < z -> -149 <= e ->
  1 <= z / 2 ^ Z.max 0 (fexp F32.prec F32.emax (Zdigits2 z + e) - e).
Proof.
  intros Hz He. rewrite fexp32.
  destruct z as [|q|q]; try lia. cbn [Zdigits2].
  pose proof (digits2_pos_bounds q) as [Hlo Hhi].
  set (d := Z.pos (digits2_pos q)) in *.
  destruct (Z_le_gt_dec d 24) as [Hd|Hd].
  - rewrite Z.max_l by lia. rewrite Z.pow_0_r, Z.div_1_r. lia.
  - replace (Z.max 0 (Z.max (d + e - 24) (-149) - e)) with (d - 24) by lia.
    apply Z.div_le_lower_bound; [lia|].
    replace (d - 1) with (d - 24 + 23) in Hlo by lia.
    rewrite Z.pow_add_r in Hlo by lia. lia.
Qed.

Lemma binary_round_aux_nonzero (s : bool) (q : positive) (ex : Z) (l : location) :
  -149 <= ex ->
  nonzero (binary_round_aux F32.prec F32.emax s (Z.pos q) ex l).
Proof.
  intros He.
  destruct (binary_round_aux_spec F32.prec F32.emax s (Z.pos q) ex l)
    as (m1 & m2 & s2 & Hm1 & Hs2 & Hm2 & ->); [lia|].
  set (s1 := Z.max 0 _) in *.
  pose proof (excess_digits_div (Z.pos q) ex ltac:(lia) He) as H1.
  fold s1 in H1.
  assert (H2 : 1 <= m2).
  { subst m2 s2. apply excess_digits_div; lia. }
  destruct m2 as [|q2|q2]; try lia.
  destruct (_ <=? _); exact I.
Qed.

Lemma binary_round_signed (s : bool) (q : positive) (ex : Z) :
  signed s (binary_round F32.prec F32.emax s q ex).
Proof.
  unfold binary_round. destruct (shl_align _ _ _) as [mz ez].
  apply binary_round_aux_signed.
Qed.

Lemma shl_align_snd (q : positive) (ex ex' : Z) :
  -149 <= ex -> -149 <= ex' -> -149 <= snd (shl_align q ex ex').
Proof.
  intros. unfold shl_align. destruct (ex' - ex); cbn [snd]; lia.
Qed.

Lemma binary_round_nonzero (s : bool) (q : positive) (ex : Z) :
  -149 <= ex ->
  nonzero (binary_round F32.prec F32.emax s q ex).
Proof.
  intros He. unfold binary_round.
  pose proof (shl_align_snd q ex
                (fexp F32.prec F32.emax (Z.pos (digits2_pos q) + ex)) He) as H.
  destruct (shl_align _ _ _) as [mz ez]. cbn [snd] in H.
  apply binary_round_aux_nonzero. apply H. rewrite fexp32. lia.
Qed.

Lemma signed_nonneg (x : spec_float) :
  signed false x -> F32.leb F32.zero x = true.
Proof. destruct x as [s|s| |s q e]; simpl; intros H; subst; easy. Qed.

Lemma signed_positive (x : spec_float) :
  signed false x -> nonzero x -> F32.ltb F32.zero x = true.
Proof. destruct x as [s|s| |s q e]; simpl; intros H N; subst; easy. Qed.

Lemma signed_not_nan (s : bool) (x : spec_float) :
  signed s x -> F32.is_nan x = false.
Proof. destruct x; simpl; easy. Qed.

Lemma shl_align_fst (q : positive) (ex ez : Z) :
  ez <= ex -> Z.pos (fst (shl_align q ex ez)) = Z.pos q * 2 ^ (ex - ez).
Proof.
  intros H. unfold shl_align.
  destruct (ez - ex) as [|d|d] eqn:E; cbn [fst]; try lia.
  - replace (ex - ez) with 0 by lia. lia.
  - change (Pos.iter xO q d) with (shift_pos d q).
    rewrite shift_pos_correct, Z.pow_pos_fold.
    replace (ex - ez) with (Z.pos d) by lia. lia.
Qed.

(** [x - y] for two finite numbers: the difference of the aligned
    mantissas, rounded. *)
Lemma sub_finite (sx sy : bool) (qx qy : positive) (ex ey : Z) :
  F32.sub (S754_finite sx qx ex) (S754_finite sy qy ey) =
  binary_normalize F32.prec F32.emax
    (cond_Zopp sx (Z.pos qx * 2 ^ (ex - Z.min ex ey))
     - cond_Zopp sy (Z.pos qy * 2 ^ (ey - Z.min ex ey)))
    (Z.min ex ey) false.
Proof.
  unfold F32.sub, SFsub.
  rewrite !shl_align_fst by lia. reflexivity.
Qed.

Lemma binary_normalize_nonneg (d e : Z) :
  0 <= d ->
  F32.leb F32.zero (binary_normalize F32.prec F32.emax d e false) = true.
Proof.
  intros H. destruct d as [|q|q]; [reflexivity| |lia].
  apply signed_nonneg. apply binary_round_signed.
Qed.

Lemma binary_normalize_positive (d e : Z) :
  0 < d -> -149 <= e ->
  F32.ltb F32.zero (binary_normalize F32.prec F32.emax d e false) = true.
Proof.
  intros H He. destruct d as [|q|q]; try lia.
  apply signed_positive;
    [apply binary_round_signed|now apply binary_round_nonzero].
Qed.

Lemma binary_normalize_not_nan (d e : Z) (s : bool) :
  F32.is_nan (binary_normalize F32.prec F32.emax d e s) = false.
Proof.
  destruct d as [|q|q]; [reflexivity| |];
    eapply signed_not_nan; apply binary_round_signed.
Qed.

(** What validity says of a finite number. *)
Lemma valid_finite (s : bool) (q : positive) (e : Z) :
  F32.valid (S754_finite s q e) = true ->
  -149 <= e <= 104 /\ Z.pos q < 2 ^ 24 /\ (-149 < e -> 2 ^ 23 <= Z.pos q).
Proof.
  unfold F32.valid, valid_binary, bounded, canonical_mantissa.
  rewrite fexp32. intros H. apply andb_true_iff in H. destruct H as [H1 H2].
  apply Z.eqb_eq in H1. apply Z.leb_le in H2. change (F32.emax - F32.prec) with 104 in H2.
  pose proof (digits2_pos_bounds q) as [Hlo Hhi].
  set (d := Z.pos (digits2_pos q)) in *.
  assert (Hd : d <= 24) by lia.
  split; [lia|]. split.
  - apply Z.lt_le_trans with (1 := Hhi). apply Z.pow_le_mono_r; lia.
  - intros He. replace d with 24 in Hlo by lia. exact Hlo.
Qed.


(** *** Signs through the rounded operations *)

Lemma binary_round_aux_sign (s : bool) (mx ex : Z) (l : location) :
  0 <= mx -> signed s (binary_round_aux F32.prec F32.emax s mx ex l).
Proof.
  intros Hmx. unfold binary_round_aux, shr_fexp.
  destruct (shr_spec (shr_record_of_loc mx l) ex
              (fexp F32.prec F32.emax (Zdigits2 mx + ex) - ex)) as [A1 A2];
    [rewrite shr_m_of_loc; lia|].
  rewrite shr_m_of_loc in A1.
  destruct (shr (shr_record_of_loc mx l) ex
              (fexp F32.prec F32.emax (Zdigits2 mx + ex) - ex)) as [mrs1 e1].
  cbn [fst snd] in A1, A2.
  set (m1 := round_nearest_even (shr_m mrs1) (loc_of_shr_record mrs1)).
  pose proof (round_nearest_even_bounds (shr_m mrs1) (loc_of_shr_record mrs1))
    as Hr. fold m1 in Hr.
  assert (H1 : 0 <= m1).
  { rewrite A1 in Hr.
    assert (0 <= mx / 2 ^ Z.max 0 (fexp F32.prec F32.emax (Zdigits2 mx + ex) - ex))
      by (apply Z.div_pos; lia).
    lia. }
  destruct (shr_spec (shr_record_of_loc m1 loc_Exact) e1
              (fexp F32.prec F32.emax (Zdigits2 m1 + e1) - e1)) as [B1 B2];
    [rewrite shr_m_of_loc; lia|].
  rewrite shr_m_of_loc in B1.
  destruct (shr (shr_record_of_loc m1 loc_Exact) e1
              (fexp F32.prec F32.emax (Zdigits2 m1 + e1) - e1)) as [mrs2 e2].
  cbn [fst snd] in B1, B2.
  assert (H2 : 0 <= shr_m mrs2) by (rewrite B1; apply Z.div_pos; lia).
  destruct (shr_m mrs2) as [|q2|q2]; [reflexivity| |lia].
  destruct (_ <=? _); reflexivity.
Qed.

Lemma binary_normalize_signed (d e : Z) :
  0 <= d -> signed false (binary_normalize F32.prec F32.emax d e false).
Proof.
  intros H. destruct d as [|q|q]; [reflexivity| |lia].
  apply binary_round_signed.
Qed.

(** The square of a number is not negative. *)
Lemma square_signed (x : F32.t) :
  F32.is_nan x = false -> signed false (F32.mul x x).
Proof.
  destruct x as [s|s| |s q e]; try discriminate; intros _; simpl.
  - apply xorb_nilpotent.
  - apply xorb_nilpotent.
  - rewrite xorb_nilpotent.
    apply (binary_round_aux_signed false (q * q)).
Qed.

Lemma add_signed (x y : F32.t) :
  signed false x -> signed false y -> signed false (F32.add x y).
Proof.
  destruct x as [sx|sx| |sx qx ex], y as [sy|sy| |sy qy ey]; simpl;
    try easy; intros -> ->; try reflexivity.
  apply binary_normalize_signed. simpl. lia.
Qed.

Lemma div_signed (sx sy : bool) (qx qy : positive) (ex ey : Z) :
  signed (xorb sx sy)
    (F32.div (S754_finite sx qx ex) (S754_finite sy qy ey)).
Proof.
  unfold F32.div, SFdiv, SFdiv_core_binary.
  set (s := ex - ey - _).
  set (m' := match s with Z.pos _ => Z.shiftl (Z.pos qx) s | 0 => Z.pos qx
                     | Z.neg _ => 0 end).
  assert (Hm : 0 <= m').
  { subst m'. destruct s; try lia. apply Z.shiftl_nonneg. lia. }
  pose proof (Z_div_mod m' (Z.pos qy) ltac:(lia)) as D.
  destruct (Z.div_eucl m' (Z.pos qy)) as [q r]. destruct D as [D1 D2].
  apply binary_round_aux_sign. nia.
Qed.

Lemma sqrt_signed (x : F32.t) : signed false x -> signed false (F32.sqrt x).
Proof.
  destruct x as [s|s| |s q e]; simpl; try easy; intros ->; try reflexivity.
  unfold SFsqrt_core_binary.
  set (m' := match _ with Z.pos _ => _ | 0 => Z.pos q | Z.neg _ => 0 end).
  pose proof (Z.sqrtrem_spec m') as S.
  destruct (Z.sqrtrem m') as [r0 r1].
  assert (Hm : 0 <= m').
  { subst m'. destruct (e - 2 * _); try lia. apply Z.shiftl_nonneg. lia. }
  specialize (S Hm).
  apply binary_round_aux_sign. lia.
Qed.

(** *** Conversion of the over-sampling rate *)

Lemma digits2_le (q : positive) (d : Z) :
  Z.pos q < 2 ^ d -> Z.pos (digits2_pos q) <= d.
Proof.
  intros H. pose proof (digits2_pos_bounds q) as [Hlo _].
  destruct (Z_le_gt_dec (Z.pos (digits2_pos q)) d) as [|Hgt]; [assumption|].
  exfalso.
  assert (2 ^ d <= 2 ^ (Z.pos (digits2_pos q) - 1)).
  { destruct (Z_lt_ge_dec d 0).
    - rewrite (Z.pow_neg_r 2 d) by lia. apply Z.pow_nonneg. lia.
    - apply Z.pow_le_mono_r; lia. }
  lia.
Qed.

Lemma Zdigits2_le (z d : Z) : 0 <= z < 2 ^ d -> 0 <= d -> Zdigits2 z <= d.
Proof.
  intros [H0 H1] Hd. destruct z as [|q|q]; cbn [Zdigits2]; try lia.
  now apply digits2_le.
Qed.

(** A number below [2^127] is not rounded to an infinity. *)
Lemma binary_round_aux_finite (s : bool) (q : positive) (ex : Z) (l : location) :
  Zdigits2 (Z.pos q) + ex <= 127 -> ex <= 104 ->
  is_finite (binary_round_aux F32.prec F32.emax s (Z.pos q) ex l) = true.
Proof.
  intros Hd He.
  destruct (binary_round_aux_spec F32.prec F32.emax s (Z.pos q) ex l)
    as (m1 & m2 & s2 & Hm1 & Hs2 & Hm2 & ->); [lia|].
  set (s1 := Z.max 0 _) in *.
  cbn [Zdigits2] in *.
  pose proof (digits2_pos_bounds q) as [Hlo Hhi].
  set (d := Z.pos (digits2_pos q)) in *.
  assert (Hd0 : 0 < d) by (subst d; lia).
  assert (Hs1 : 0 <= s1) by (subst s1; lia).
  assert (Hs1d : s1 <= d \/ (d < s1 /\ Z.pos q / 2 ^ s1 = 0)).
  { destruct (Z_le_gt_dec s1 d); [left; assumption|right].
    split; [lia|]. apply Z.div_small. split; [lia|].
    apply Z.lt_le_trans with (1 := Hhi). apply Z.pow_le_mono_r; lia. }
  assert (H0 : 0 <= Z.pos q / 2 ^ s1) by (apply Z.div_pos; lia).
  assert (Hm1d : Zdigits2 m1 + (ex + s1) <= 128).
  { destruct Hs1d as [Hle|[Hgt Hz]].
    - assert (m1 < 2 ^ (d - s1 + 1)).
      { assert (Z.pos q / 2 ^ s1 < 2 ^ (d - s1)).
        { apply Z.div_lt_upper_bound; [lia|].
          rewrite <- Z.pow_add_r by lia.
          replace (s1 + (d - s1)) with d by lia. exact Hhi. }
        rewrite Z.pow_add_r by lia. lia. }
      assert (Zdigits2 m1 <= d - s1 + 1) by (apply Zdigits2_le; lia).
      lia.
    - rewrite Hz in Hm1.
      assert (Zdigits2 m1 <= 1) by (apply Zdigits2_le; simpl; lia).
      subst s1. rewrite fexp32 in *. lia. }
  assert (Hm2' : 0 <= m2) by (subst m2; apply Z.div_pos; lia).
  destruct m2 as [|q2|q2]; [reflexivity| |lia].
  assert (Hfin : ex + s1 + s2 <= 104).
  { subst s2. subst s1. rewrite !fexp32 in *. lia. }
  apply Z.leb_le in Hfin. change (F32.emax - F32.prec) with 104.
  rewrite Hfin. reflexivity.
Qed.

Lemma of_Z_finite (k : Z) :
  1 <= k < 2 ^ 32 ->
  exists q e, F32.of_Z k = S754_finite false q e.
Proof.
  intros Hk. unfold F32.of_Z, binary_normalize.
  destruct k as [|p|p]; try lia.
  pose proof (binary_round_signed false p 0) as Hs.
  pose proof (binary_round_nonzero false p 0 ltac:(lia)) as Hn.
  assert (Hf : is_finite (binary_round F32.prec F32.emax false p 0) = true).
  { unfold binary_round.
    set (ez := fexp F32.prec F32.emax (Z.pos (digits2_pos p) + 0)).
    pose proof (digits2_le p 32 ltac:(lia)) as Hd.
    assert (Hez : ez <= 8) by (subst ez; rewrite fexp32; lia).
    destruct (Z_le_gt_dec ez 0) as [Hle|Hgt].
    - pose proof (shl_align_fst p 0 ez Hle) as Hfst.
      assert (Hsnd : snd (shl_align p 0 ez) = ez).
      { unfold shl_align. destruct (ez - 0) eqn:E; cbn [snd]; lia. }
      destruct (shl_align p 0 ez) as [mz ez']. cbn [fst snd] in *. subst ez'.
      apply binary_round_aux_finite; [|lia].
      cbn [Zdigits2].
      assert (Z.pos (digits2_pos mz) <= 32 - ez); [|lia].
      apply digits2_le. rewrite Hfst.
      replace (32 - ez) with (32 + (0 - ez)) by lia.
      rewrite Z.pow_add_r by lia.
      assert (0 < 2 ^ (0 - ez)) by (apply Z.pow_pos_nonneg; lia).
      nia.
    - assert (E : shl_align p 0 ez = (p, 0)).
      { unfold shl_align. destruct (ez - 0) eqn:E; try reflexivity; lia. }
      rewrite E. apply binary_round_aux_finite; [|lia].
      cbn [Zdigits2]. lia. }
  destruct (binary_round F32.prec F32.emax false p 0) as [s0|s0| |s0 q0 e0];
    try discriminate; try (exfalso; exact Hn).
  simpl in Hs. subst s0. eauto.
Qed.

Lemma binary_round_aux_not_negative (mx ex : Z) (l : location) :
  0 <= mx ->
  not_negative (binary_round_aux F32.prec F32.emax false mx ex l).
Proof.
  intros Hmx. unfold binary_round_aux, shr_fexp.
  destruct (shr_spec (shr_record_of_loc mx l) ex
              (fexp F32.prec F32.emax (Zdigits2 mx + ex) - ex)) as [A1 A2];
    [rewrite shr_m_of_loc; lia|].
  rewrite shr_m_of_loc in A1.
  destruct (shr (shr_record_of_loc mx l) ex
              (fexp F32.prec F32.emax (Zdigits2 mx + ex) - ex)) as [mrs1 e1].
  cbn [fst snd] in A1, A2.
  set (m1 := round_nearest_even (shr_m mrs1) (loc_of_shr_record mrs1)).
  pose proof (round_nearest_even_bounds (shr_m mrs1) (loc_of_shr_record mrs1))
    as Hr. fold m1 in Hr.
  assert (H1 : 0 <= m1).
  { rewrite A1 in Hr.
    assert (0 <= mx / 2 ^ Z.max 0 (fexp F32.prec F32.emax (Zdigits2 mx + ex) - ex))
      by (apply Z.div_pos; lia).
    lia. }
  assert (He1 : -149 <= e1) by (rewrite fexp32 in A2; lia).
  destruct (shr_spec (shr_record_of_loc m1 loc_Exact) e1
              (fexp F32.prec F32.emax (Zdigits2 m1 + e1) - e1)) as [B1 B2];
    [rewrite shr_m_of_loc; lia|].
  rewrite shr_m_of_loc in B1.
  destruct (shr (shr_record_of_loc m1 loc_Exact) e1
              (fexp F32.prec F32.emax (Zdigits2 m1 + e1) - e1)) as [mrs2 e2].
  cbn [fst snd] in B1, B2.
  assert (H2 : 0 <= shr_m mrs2) by (rewrite B1; apply Z.div_pos; lia).
  destruct (shr_m mrs2) as [|q2|q2]; [exact I| |lia].
  destruct (_ <=? _); [|reflexivity].
  split; [reflexivity|lia].
Qed.

Lemma of_Z_positive_finite (k : Z) :
  1 <= k < 2 ^ 32 -> is_positive_finite (F32.of_Z k).
Proof.
  intros Hk. destruct (of_Z_finite k Hk) as (q & e & E).
  assert (H : not_negative (F32.of_Z k)).
  { unfold F32.of_Z, binary_normalize. destruct k as [|p|p]; try lia.
    unfold binary_round. destruct (shl_align _ _ _) as [mz ez].
    apply binary_round_aux_not_negative. lia. }
  rewrite E in *. exact H.
Qed.

Section Properties.
Context {env : Collaborators}.

Local Open Scope f32_scope.

(** *** Order facts of the format *)

Lemma SFcompare_antisym_opt (x y : spec_float) :
  SFcompare y x = option_map CompOpp (SFcompare x y).
Proof.
  destruct x as [sx|sx| |sx mx ex], y as [sy|sy| |sy my ey]; simpl;
    try reflexivity;
    try (destruct sx; reflexivity);
    try (destruct sy; reflexivity);
    try (destruct sx, sy; reflexivity).
  destruct sx, sy; simpl; try reflexivity;
    rewrite (Z.compare_antisym ex ey);
    destruct (ex ?= ey)%Z; simpl; try reflexivity;
    pose proof (Pos.compare_cont_antisym mx my Eq) as A; simpl in A;
    rewrite <- A; destruct (Pos.compare_cont Eq mx my); reflexivity.
Qed.

Lemma ltb_leb_false (x y : F32.t) :
  (x <? y) = true -> (y <=? x) = false.
Proof.
  unfold F32.ltb, F32.leb, SFltb, SFleb.
  rewrite (SFcompare_antisym_opt x y).
  destruct (SFcompare x y) as [[]|]; simpl; congruence.
Qed.

Lemma leb_ltb_false (x y : F32.t) :
  (x <=? y) = true -> (y <? x) = false.
Proof.
  unfold F32.ltb, F32.leb, SFltb, SFleb.
  rewrite (SFcompare_antisym_opt x y).
  destruct (SFcompare x y) as [[]|]; simpl; congruence.
Qed.

(** A strict test against [beta] that fires makes the weak one fire. *)
Lemma ltb_leb (x y : F32.t) : (x <? y) = true -> (x <=? y) = true.
Proof.
  unfold F32.ltb, F32.leb, SFltb, SFleb.
  destruct (SFcompare x y) as [[]|]; simpl; congruence.
Qed.

Lemma accepted_public_internal k m beta dt :
  accepted_public k m beta dt -> accepted_internal k m beta.
Proof.
  intros (Hk & Hm & Hb0 & Hb1 & _).
  repeat split; try lia.
  - destruct (beta <? F32.zero) eqn:E; [|reflexivity].
    apply ltb_leb in E. congruence.
  - destruct (beta >? F32.one) eqn:E; [|reflexivity].
    apply ltb_leb in E. congruence.
Qed.

(** *** What the entry points compute on the inputs they accept *)

Lemma approximate_rho_accepts m beta :
  1 <= m -> (beta <? F32.zero) = false -> (beta >? F32.one) = false ->
  rkaiser_approximate_rho m beta =
  Returned [] (clamp01 (rkaiser_rho_unclamped m beta)).
Proof.
  intros Hm H0 H1. unfold rkaiser_approximate_rho.
  destruct (m <? 1)%Z eqn:E; [apply Z.ltb_lt in E; lia|].
  rewrite H0, H1. reflexivity.
Qed.

Lemma internal_accepts k m beta dt :
  accepted_internal k m beta ->
  let rho_hat := clamp01 (rkaiser_rho_unclamped m beta) in
  let run := rkaiser_search k m beta dt rho_hat in
  design_rkaiser_filter_internal k m beta dt =
  Returned (snd run)
    (Design (normalize k (filter_length k m)
               (kaiser_taps k m beta dt (x_hat (fst run))))
            rho_hat).
Proof.
  intros (Hk & Hm & H0 & H1). cbv zeta.
  unfold design_rkaiser_filter_internal.
  destruct (k <? 1)%Z eqn:Ek; [apply Z.ltb_lt in Ek; lia|].
  destruct (m <? 1)%Z eqn:Em; [apply Z.ltb_lt in Em; lia|].
  rewrite H0, H1. simpl orb. cbv iota.
  rewrite (approximate_rho_accepts m beta Hm H0 H1).
  unfold bind at 1.
  destruct (rkaiser_search k m beta dt
              (clamp01 (rkaiser_rho_unclamped m beta))) as [st out].
  unfold design_rkaiser_filter_internal_isi.
  destruct (liquid_filter_isi (kaiser_taps k m beta dt (x_hat st)) k m).
  simpl. rewrite app_nil_r. reflexivity.
Qed.

Lemma exact_accepts k m beta dt :
  accepted_public k m beta dt ->
  let rho_hat := clamp01 (rkaiser_rho_unclamped m beta) in
  let run := rkaiser_search k m beta dt rho_hat in
  design_rkaiser_filter k m beta dt =
  Returned (snd run)
    (normalize k (filter_length k m)
       (kaiser_taps k m beta dt (x_hat (fst run)))).
Proof.
  intros H. pose proof (accepted_public_internal _ _ _ _ H) as Hi.
  destruct H as (Hk & Hm & Hb0 & Hb1 & Hd0 & Hd1). cbv zeta.
  unfold design_rkaiser_filter.
  destruct (k <? 2)%Z eqn:Ek; [apply Z.ltb_lt in Ek; lia|].
  destruct (m <? 1)%Z eqn:Em; [apply Z.ltb_lt in Em; lia|].
  rewrite Hb0, Hb1, Hd0, Hd1. simpl orb. cbv iota.
  rewrite (internal_accepts k m beta dt Hi). simpl.
  rewrite app_nil_r. reflexivity.
Qed.

Lemma approximate_accepts k m beta dt :
  accepted_public k m beta dt ->
  design_arkaiser_filter k m beta dt =
  Returned []
    (normalize k (filter_length k m)
       (kaiser_taps k m beta dt (clamp01 (rkaiser_rho_unclamped m beta)))).
Proof.
  intros H. pose proof (accepted_public_internal _ _ _ _ H) as Hi.
  destruct H as (Hk & Hm & Hb0 & Hb1 & Hd0 & Hd1).
  destruct Hi as (_ & _ & H0 & H1).
  unfold design_arkaiser_filter.
  destruct (k <? 2)%Z eqn:Ek; [apply Z.ltb_lt in Ek; lia|].
  destruct (m <? 1)%Z eqn:Em; [apply Z.ltb_lt in Em; lia|].
  rewrite Hb0, Hb1, Hd0, Hd1. simpl orb. cbv iota.
  rewrite (approximate_rho_accepts m beta Hm H0 H1).
  reflexivity.
Qed.

(** *** The rounds of the search *)

Lemma search_round_break k m beta dt st :
  breaks k m beta dt st = true ->
  exists h, search_round k m beta dt st =
            Break (SearchState (x0 st) (y0 st) (x2 st) (y2 st)
                               (x_hat st) (p st) h).
Proof.
  unfold breaks, round_denominator, search_round.
  destruct (design_rkaiser_filter_internal_isi k m beta dt (midpoint st))
    as [y1 h]. simpl fst. intros ->. eauto.
Qed.

Lemma search_round_continue k m beta dt st :
  breaks k m beta dt st = false ->
  let x1 := midpoint st in
  let y1 := objective k m beta dt x1 in
  let xh := round_vertex k m beta dt st in
  exists h line,
    search_round k m beta dt st =
    Continue
      (if xh >? x1
       then SearchState x1 y1 (x2 st) (y2 st) xh (p st + 1) h
       else SearchState (x0 st) (y0 st) x1 y1 xh (p st + 1) h)
      line.
Proof.
  unfold breaks, round_denominator, round_vertex, objective, search_round.
  destruct (design_rkaiser_filter_internal_isi k m beta dt (midpoint st))
    as [y1 h]. simpl fst. intros ->. cbv zeta.
  destruct (design_rkaiser_filter_internal_isi k m beta dt _) as [yh h'].
  destruct (_ >? _); eauto.
Qed.

(** A round that breaks leaves the bracket, [x_hat] and [p] as they were. *)
Lemma breaks_bracket k m beta dt st st' :
  x0 st' = x0 st -> y0 st' = y0 st -> x2 st' = x2 st -> y2 st' = y2 st ->
  breaks k m beta dt st' = breaks k m beta dt st.
Proof.
  intros A B C D. unfold breaks, round_denominator, midpoint.
  rewrite A, B, C, D. reflexivity.
Qed.

Lemma search_loop_rounds k m beta dt n st :
  let st' := fst (search_loop k m beta dt n st) in
  let out := snd (search_loop k m beta dt n st) in
  (p st <= p st' <= p st + Z.of_nat n)%Z /\
  Z.of_nat (List.length out) = (p st' - p st)%Z /\
  ((p st' < p st + Z.of_nat n)%Z -> breaks k m beta dt st' = true) /\
  (forall j, (j < List.length out)%nat ->
             breaks k m beta dt (fst (search_loop k m beta dt j st)) = false).
Proof.
  revert st. induction n as [|n IH]; intros st; cbv zeta.
  - simpl. repeat split; try lia; intros j Hj; inversion Hj.
  - cbn [search_loop].
    destruct (breaks k m beta dt st) eqn:Eb.
    + destruct (search_round_break _ _ _ _ _ Eb) as [h ->].
      cbn [fst snd p List.length].
      repeat split; try lia.
      intros _. erewrite breaks_bracket; [exact Eb|reflexivity..].
    + destruct (search_round_continue _ _ _ _ _ Eb) as (h & line & Er).
      cbv zeta in Er. rewrite Er.
      set (st1 := if _ >? _ then _ else _) in *.
      assert (Hp : p st1 = (p st + 1)%Z)
        by (subst st1; destruct (_ >? _); reflexivity).
      specialize (IH st1). cbv zeta in IH.
      destruct (search_loop k m beta dt n st1) as [st2 out] eqn:El.
      cbn [fst snd] in IH |- *.
      destruct IH as (I1 & I2 & I3 & I4).
      cbn [List.length]. repeat split; try lia.
      * intros Hlt. apply I3. lia.
      * intros [|j] Hj.
        -- simpl. exact Eb.
        -- cbn [search_loop]. rewrite Er.
           specialize (I4 j ltac:(simpl in Hj; lia)).
           destruct (search_loop k m beta dt j st1). exact I4.
Qed.

Lemma search_init_p k m beta dt rho_hat :
  p (search_init k m beta dt rho_hat) = 0%Z.
Proof.
  unfold search_init.
  destruct (design_rkaiser_filter_internal_isi k m beta dt _).
  destruct (design_rkaiser_filter_internal_isi k m beta dt _).
  reflexivity.
Qed.

(** C5.  On every input the internal design accepts, the design returns,
    and its parabolic search makes at most [pmax = 10] rounds: the final
    value of the loop counter [p] is between 0 and 10 and one line is
    printed per completed round.  The loop stops before the tenth round
    only through the [break]: if [p < 10] on exit then the magnitude of the
    denominator of the final bracket is below [1e-9f]; no completed round
    had such a denominator, and nothing else (neither the width of the
    bracket nor the change of the objective) ends the loop. *)
Theorem search_stops_by_budget_or_break k m beta dt :
  accepted_internal k m beta ->
  let rho_hat := clamp01 (rkaiser_rho_unclamped m beta) in
  let start := search_init k m beta dt rho_hat in
  let final := fst (rkaiser_search k m beta dt rho_hat) in
  exists out d,
    design_rkaiser_filter_internal k m beta dt = Returned out d /\
    out = snd (rkaiser_search k m beta dt rho_hat) /\
    (0 <= p final <= pmax)%Z /\
    Z.of_nat (List.length out) = p final /\
    (p final = pmax \/ breaks k m beta dt final = true) /\
    (forall j, (j < List.length out)%nat ->
       breaks k m beta dt (fst (search_loop k m beta dt j start)) = false).
Proof.
  intros Ha. cbv zeta.
  rewrite (internal_accepts k m beta dt Ha).
  do 2 eexists. split; [reflexivity|]. split; [reflexivity|].
  unfold rkaiser_search.
  pose proof (search_loop_rounds k m beta dt (Z.to_nat pmax)
                (search_init k m beta dt
                   (clamp01 (rkaiser_rho_unclamped m beta)))) as H.
  cbv zeta in H. destruct H as (H1 & H2 & H3 & H4).
  rewrite search_init_p in *.
  change (Z.of_nat (Z.to_nat pmax)) with pmax in *.
  repeat split; try lia.
  - destruct (Z.eq_dec
                (p (fst (search_loop k m beta dt (Z.to_nat pmax)
                           (search_init k m beta dt
                              (clamp01 (rkaiser_rho_unclamped m beta))))))
                pmax)
      as [E|E]; [left; exact E|right; apply H3; lia].
  - exact H4.
Qed.

(** Multiplication of the format is commutative. *)
Lemma mul_comm (x y : F32.t) : x * y = y * x.
Proof.
  unfold F32.mul.
  destruct x as [sx|sx| |sx mx ex], y as [sy|sy| |sy my ey]; simpl;
    try reflexivity;
    try (rewrite xorb_comm; reflexivity).
  rewrite xorb_comm, Pos.mul_comm, Z.add_comm. reflexivity.
Qed.

(** A round that breaks, run again on the state it leaves, breaks again
    and leaves the same state. *)
Lemma search_round_break_again k m beta dt st st' :
  search_round k m beta dt st = Break st' ->
  search_round k m beta dt st' = Break st'.
Proof.
  unfold search_round.
  destruct (design_rkaiser_filter_internal_isi k m beta dt (midpoint st))
    as [y1 h] eqn:E1.
  destruct (F32.abs _ <? _) eqn:Eb.
  - intros [= <-]. unfold midpoint in *. cbn [x0 y0 x2 y2 x_hat p].
    rewrite E1, Eb. reflexivity.
  - clear E1.
    destruct (design_rkaiser_filter_internal_isi k m beta dt _) as [yh h'].
    destruct (midpoint st <? _); intros HH; discriminate HH.
Qed.

Lemma search_loop_S k m beta dt n st :
  search_loop k m beta dt (S n) st =
  match search_round k m beta dt st with
  | Break st' => (st', [])
  | Continue st' line =>
      let '(st'', out) := search_loop k m beta dt n st' in
      (st'', line :: out)
  end.
Proof. reflexivity. Qed.

(** The state after [j + 1] rounds of the loop is the state one pass
    through the body leaves when it starts from the state after [j]
    rounds. *)
Lemma search_loop_succ k m beta dt j : forall st,
  fst (search_loop k m beta dt (S j) st) =
  state_of (search_round k m beta dt (fst (search_loop k m beta dt j st))).
Proof.
  induction j as [|j IH]; intros st.
  - cbn [search_loop fst].
    destruct (search_round k m beta dt st) as [s|s line]; reflexivity.
  - rewrite (search_loop_S k m beta dt (S j) st),
      (search_loop_S k m beta dt j st).
    destruct (search_round k m beta dt st) as [s|s line] eqn:Er.
    + cbn [fst]. now rewrite (search_round_break_again _ _ _ _ _ _ Er).
    + specialize (IH s).
      destruct (search_loop k m beta dt (S j) s) as [s2 out2].
      destruct (search_loop k m beta dt j s) as [s1 out1].
      exact IH.
Qed.

(** C6.  The search is the loop run for ten rounds from the initial
    bracket [x0 = 0.9 rho_hat], [x2 = 1.1 rho_hat], with the objective
    evaluated at both ends, [x_hat = rho_hat] and [p = 0].  Let [st] be
    the variables after [j] rounds and [st'] those after [j + 1] rounds.
    The round sets [x1] to the midpoint [0.5 (x0 + x2)] of [st] and
    evaluates [y1] there.  If the denominator [t1 = y0(x1-x2) + y1(x2-x0)
    + y2(x0-x1)] is below [1e-9f] in magnitude the loop has stopped:
    bracket, vertex and counter of [st'] are those of [st].  Otherwise
    the vertex becomes [x_hat = 0.5 t0 / t1], with
    [t0 = y0(x1^2-x2^2) + y1(x2^2-x0^2) + y2(x0^2-x1^2)], the counter
    advances, and the bracket is narrowed by position: if [x_hat > x1]
    the lower end [(x0,y0)] becomes [(x1,y1)], otherwise the upper end
    [(x2,y2)] becomes [(x1,y1)]. *)
Theorem search_follows_parabolic_interpolation k m beta dt rho_hat j :
  let f := objective k m beta dt in
  let start := search_init k m beta dt rho_hat in
  let st := fst (search_loop k m beta dt j start) in
  let st' := fst (search_loop k m beta dt (S j) start) in
  let x1 := Lit.f0_5 * (x0 st + x2 st) in
  let y1 := f x1 in
  let t0 := y0 st * (x1 * x1 - x2 st * x2 st)
            + y1 * (x2 st * x2 st - x0 st * x0 st)
            + y2 st * (x0 st * x0 st - x1 * x1) in
  let t1 := y0 st * (x1 - x2 st) + y1 * (x2 st - x0 st)
            + y2 st * (x0 st - x1) in
  let xh := Lit.f0_5 * t0 / t1 in
  (x0 start = Lit.f0_9 * rho_hat /\ x2 start = Lit.f1_1 * rho_hat /\
   y0 start = f (x0 start) /\ y2 start = f (x2 start) /\
   x_hat start = rho_hat /\ p start = 0%Z) /\
  rkaiser_search k m beta dt rho_hat = search_loop k m beta dt 10 start /\
  ((F32.abs t1 <? Lit.f1e_9) = true ->
   x0 st' = x0 st /\ y0 st' = y0 st /\ x2 st' = x2 st /\ y2 st' = y2 st /\
   x_hat st' = x_hat st /\ p st' = p st) /\
  ((F32.abs t1 <? Lit.f1e_9) = false ->
   x_hat st' = xh /\ p st' = (p st + 1)%Z /\
   ((xh >? x1) = true ->
    x0 st' = x1 /\ y0 st' = y1 /\ x2 st' = x2 st /\ y2 st' = y2 st) /\
   ((xh >? x1) = false ->
    x0 st' = x0 st /\ y0 st' = y0 st /\ x2 st' = x1 /\ y2 st' = y1)).
Proof.
  intros f start st st' x1 y1 t0 t1 xh.
  split; [|split; [reflexivity|split]].
  - pose proof (search_init_p k m beta dt rho_hat) as Hp. fold start in Hp.
    subst start f. unfold search_init, objective in *.
    rewrite (mul_comm Lit.f0_9), (mul_comm Lit.f1_1).
    destruct (design_rkaiser_filter_internal_isi k m beta dt
                (rho_hat * Lit.f0_9)) as [a0 h0] eqn:E0.
    destruct (design_rkaiser_filter_internal_isi k m beta dt
                (rho_hat * Lit.f1_1)) as [a2 h2] eqn:E2.
    cbn [x0 y0 x2 y2 x_hat p]. rewrite E0, E2. auto 7.
  - intros Hb.
    assert (Hb' : breaks k m beta dt st = true) by exact Hb.
    destruct (search_round_break k m beta dt st Hb') as (h & E).
    subst st'. rewrite search_loop_succ. fold start. fold st.
    rewrite E. cbn. auto 6.
  - intros Hb.
    assert (Hb' : breaks k m beta dt st = false) by exact Hb.
    destruct (search_round_continue k m beta dt st Hb') as (h & line & E).
    cbv zeta in E.
    change (midpoint st) with x1 in E.
    change (objective k m beta dt x1) with y1 in E.
    change (round_vertex k m beta dt st) with xh in E.
    subst st'. rewrite search_loop_succ. fold start. fold st.
    rewrite E. cbn [state_of].
    destruct (xh >? x1); cbn [x0 y0 x2 y2 x_hat p];
      repeat split; intros; try reflexivity; congruence.
Qed.


Lemma search_init_x_hat k m beta dt rho_hat :
  x_hat (search_init k m beta dt rho_hat) = rho_hat.
Proof.
  unfold search_init.
  destruct (design_rkaiser_filter_internal_isi k m beta dt _).
  destruct (design_rkaiser_filter_internal_isi k m beta dt _).
  reflexivity.
Qed.


(** *** The clamp of the estimate *)

Lemma SFcompare_none (x y : spec_float) :
  SFcompare x y = None -> F32.is_nan x = true \/ F32.is_nan y = true.
Proof.
  destruct x as [sx|sx| |sx mx ex], y as [sy|sy| |sy my ey]; simpl;
    auto; try discriminate;
    try (destruct sx; discriminate); try (destruct sy; discriminate).
Qed.

Lemma not_ltb_leb (x y : F32.t) :
  F32.is_nan x = false -> F32.is_nan y = false ->
  (y <? x) = false -> (x <=? y) = true.
Proof.
  intros Hx Hy. unfold F32.ltb, F32.leb, SFltb, SFleb.
  rewrite (SFcompare_antisym_opt x y).
  destruct (SFcompare x y) as [[]|] eqn:E; simpl; try congruence.
  destruct (SFcompare_none _ _ E); congruence.
Qed.


Lemma clamp01_range (x : F32.t) :
  F32.is_nan x = false -> in_unit_interval (clamp01 x) = true.
Proof.
  intros Hx. unfold clamp01.
  destruct (x <? F32.zero) eqn:E0; [reflexivity|].
  destruct (x >? F32.one) eqn:E1; [reflexivity|].
  unfold in_unit_interval.
  rewrite (not_ltb_leb x F32.one Hx eq_refl E1).
  rewrite (not_ltb_leb F32.zero x eq_refl Hx E0). reflexivity.
Qed.


(** *** Normalisation *)

Lemma normalize_length k n h : List.length (normalize k n h) = Z.to_nat n.
Proof. unfold normalize. now rewrite length_map, length_seq. Qed.

Lemma normalize_nth k n h i :
  (i < Z.to_nat n)%nat ->
  nth i (normalize k n h) F32.zero =
  tap h i * F32.sqrt (F32.of_Z k / energy n h).
Proof.
  intros Hi. unfold normalize.
  set (g := fun j : nat => tap h j * F32.sqrt (F32.of_Z k / energy n h)).
  rewrite (nth_indep _ F32.zero (g O)) by now rewrite length_map, length_seq.
  rewrite map_nth, seq_nth by assumption. reflexivity.
Qed.



(** C9 (as amended).  The exact design does not compare the interference
    of its result with that of the estimate.  What holds is the case in
    which the search makes no step: when the first round breaks (the
    denominator of the initial bracket is below [1e-9f]), the final vertex
    is the estimate and the exact and the approximate design return the
    same taps, hence filters of equal interference. *)
Theorem designs_agree_when_the_first_round_breaks k m beta dt :
  accepted_public k m beta dt ->
  breaks k m beta dt
    (search_init k m beta dt (clamp01 (rkaiser_rho_unclamped m beta))) = true ->
  exists exact approx,
    design_rkaiser_filter k m beta dt = Returned [] exact /\
    design_arkaiser_filter k m beta dt = Returned [] approx /\
    exact = approx /\
    fst (liquid_filter_isi exact k m) = fst (liquid_filter_isi approx k m).
Proof.
  intros H Hb.
  rewrite (exact_accepts k m beta dt H), (approximate_accepts k m beta dt H).
  unfold rkaiser_search. change (Z.to_nat pmax) with 10%nat.
  cbn [search_loop].
  destruct (search_round_break _ _ _ _ _ Hb) as [h ->].
  cbn [fst snd x_hat]. rewrite search_init_x_hat.
  do 2 eexists. repeat split.
Qed.

(** *** The argument of the logarithm *)

(** [0.999f * beta] for a positive [beta <= 1] that is normal, or subnormal
    with a mantissa above 1000: the product is [+0] or a positive number
    strictly below [beta]. *)
Lemma mul_f0_999_below (qb : positive) (eb : Z) :
  F32.valid (S754_finite false qb eb) = true ->
  (eb <= -23)%Z ->
  (1001 <= Z.pos qb \/ -149 < eb)%Z ->
  Lit.f0_999 * S754_finite false qb eb = S754_zero false \/
  exists q2 e2,
    Lit.f0_999 * S754_finite false qb eb = S754_finite false q2 e2 /\
    (-149 <= e2)%Z /\ (eb - 24 <= e2)%Z /\
    (Z.pos q2 * 2 ^ (e2 - (eb - 24)) < Z.pos qb * 2 ^ 24)%Z.
Proof.
  intros Hv Hle Hbig.
  destruct (valid_finite _ _ _ Hv) as (He & Hq & Hn).
  change (Lit.f0_999 * S754_finite false qb eb)
    with (binary_round_aux F32.prec F32.emax false
            (Z.pos (16760439 * qb)) (-24 + eb) loc_Exact).
  destruct (binary_round_aux_spec F32.prec F32.emax false
              (Z.pos (16760439 * qb)) (-24 + eb) loc_Exact)
    as (m1 & m2 & s2 & Hm1 & Hs2 & Hm2 & ->); [lia|].
  set (P := Z.pos (16760439 * qb)) in *.
  set (s1 := Z.max 0 _) in *.
  assert (HP : P = (16760439 * Z.pos qb)%Z) by (subst P; lia).
  (* the first shift is small against beta *)
  assert (Hs1 : (2 ^ s1 < 16777 * Z.pos qb)%Z).
  { pose proof (digits2_pos_bounds (16760439 * qb)) as [Hlo _].
    fold P in Hlo. rewrite HP in Hlo. clear HP.
    subst s1 P. rewrite fexp32. cbn [Zdigits2].
    set (dP := Z.pos (digits2_pos (16760439 * qb))) in *.
    destruct (Z.max_spec 0 (Z.max (dP + (-24 + eb) - 24) (-149) - (-24 + eb)))
      as [[_ ->]|[_ ->]]; [|lia].
    destruct (Z.max_spec (dP + (-24 + eb) - 24) (-149)) as [[_ ->]|[_ ->]].
    - replace (-149 - (-24 + eb))%Z with (-125 - eb)%Z by lia.
      destruct (Z.eq_dec eb (-149)) as [->|Hne].
      + change (2 ^ (-125 - -149))%Z with 16777216%Z. lia.
      + apply Z.le_lt_trans with (2 ^ 23)%Z; [apply Z.pow_le_mono_r; lia|].
        specialize (Hn ltac:(lia)). lia.
    - replace (dP + (-24 + eb) - 24 - (-24 + eb))%Z with (dP - 24)%Z by lia.
      destruct (Z_le_gt_dec dP 24) as [Hd|Hd].
      + apply Z.le_lt_trans with (2 ^ 0)%Z; [|simpl; lia].
        destruct (Z.eq_dec dP 24) as [->|]; [simpl; lia|].
        rewrite Z.pow_neg_r by lia. simpl. lia.
      + replace (dP - 1)%Z with (dP - 24 + 23)%Z in Hlo by lia.
        rewrite Z.pow_add_r in Hlo by lia. lia. }
  assert (H0 : (0 <= P / 2 ^ s1)%Z) by (apply Z.div_pos; lia).
  assert (Hs1' : (0 <= s1)%Z) by (subst s1; lia).
  assert (Hs2' : (0 <= s2)%Z) by (subst s2; lia).
  assert (Hb : (m2 * 2 ^ (s1 + s2) < Z.pos qb * 2 ^ 24)%Z).
  { rewrite Z.pow_add_r by lia.
    assert (A : (m2 * 2 ^ s2 <= m1)%Z).
    { subst m2. rewrite Z.mul_comm. apply Z.mul_div_le. lia. }
    assert (B : (P / 2 ^ s1 * 2 ^ s1 <= P)%Z).
    { rewrite Z.mul_comm. apply Z.mul_div_le. lia. }
    assert (C : (0 < 2 ^ s1)%Z) by lia.
    nia. }
  assert (Hm2' : (0 <= m2)%Z) by (subst m2; apply Z.div_pos; lia).
  destruct m2 as [|q2|q2]; [left; reflexivity| |lia].
  right.
  assert (Hlt : (s1 + s2 < 48)%Z).
  { apply (Z.pow_lt_mono_r_iff 2); [lia|lia|].
    apply Z.le_lt_trans with (Z.pos q2 * 2 ^ (s1 + s2))%Z; [nia|].
    apply Z.lt_trans with (1 := Hb).
    change (2 ^ 48)%Z with (2 ^ 24 * 2 ^ 24)%Z. nia. }
  destruct (-24 + eb + s1 + s2 <=? F32.emax - F32.prec)%Z eqn:El.
  - exists q2, (-24 + eb + s1 + s2)%Z. split; [reflexivity|].
    split.
    + assert (fexp F32.prec F32.emax (Zdigits2 P + (-24 + eb)) - (-24 + eb)
              <= s1)%Z by (subst s1; lia).
      rewrite fexp32 in H. lia.
    + split; [lia|].
      replace (-24 + eb + s1 + s2 - (eb - 24))%Z with (s1 + s2)%Z by lia.
      exact Hb.
  - apply Z.leb_gt in El. change (F32.emax - F32.prec)%Z with 104%Z in El. lia.
Qed.

(** The difference of two positive finite numbers is positive when the
    first is the larger. *)
Lemma sub_positive (qx qy : positive) (ex ey e0 : Z) :
  (-149 <= ex)%Z -> (-149 <= ey)%Z -> (e0 <= ex)%Z -> (e0 <= ey)%Z ->
  (Z.pos qy * 2 ^ (ey - e0) < Z.pos qx * 2 ^ (ex - e0))%Z ->
  (F32.zero <? S754_finite false qx ex - S754_finite false qy ey) = true.
Proof.
  intros Hx Hy H0x H0y Hlt. rewrite sub_finite.
  apply binary_normalize_positive; [|lia].
  cbn [cond_Zopp].
  set (ez := Z.min ex ey) in *.
  replace (ey - e0)%Z with ((ey - ez) + (ez - e0))%Z in Hlt by lia.
  replace (ex - e0)%Z with ((ex - ez) + (ez - e0))%Z in Hlt by lia.
  rewrite !Z.pow_add_r in Hlt by lia.
  assert (0 < 2 ^ (ez - e0))%Z by (apply Z.pow_pos_nonneg; lia).
  nia.
Qed.

Lemma small_subnormals_checked :
  forallb small_subnormal_ok (map Pos.of_nat (seq 1 1000)) = true.
Proof. vm_compute. reflexivity. Qed.

Lemma small_subnormal (q : positive) :
  (Z.pos q <= 1000)%Z -> small_subnormal_ok q = true.
Proof.
  intros H.
  pose proof small_subnormals_checked as A.
  rewrite forallb_forall in A. apply A.
  apply in_map_iff. exists (Pos.to_nat q). split.
  - apply Pos2Nat.id.
  - apply in_seq. lia.
Qed.

Lemma unit_interval_cases (beta : F32.t) :
  in_unit_interval beta = true ->
  (exists s, beta = S754_zero s) \/
  (exists qb eb, beta = S754_finite false qb eb /\ (eb <= -23)%Z).
Proof.
  unfold in_unit_interval. intros H. apply andb_true_iff in H.
  destruct H as [H0 H1].
  destruct beta as [s|s| |s qb eb]; try discriminate.
  - left. eauto.
  - destruct s; discriminate.
  - destruct s; [discriminate|]. right. exists qb, eb. split; [reflexivity|].
    unfold F32.leb, SFleb, F32.one, SFcompare in H1.
    destruct (Z.compare_spec eb (-23)); try discriminate; lia.
Qed.

(** [beta - c2] when the tabulated [c2] is below a positive [beta]. *)
Lemma sub_smaller_positive (qb : positive) (eb : Z) (c2 : F32.t) :
  F32.valid (S754_finite false qb eb) = true ->
  F32.valid c2 = true -> F32.is_nan c2 = false ->
  (S754_finite false qb eb <=? c2) = false ->
  (F32.zero <? S754_finite false qb eb - c2) = true.
Proof.
  intros Hv Hvc Hn Hle.
  destruct (valid_finite _ _ _ Hv) as (He & Hq & Hnorm).
  destruct c2 as [s|s| |s qc ec]; try discriminate.
  - reflexivity.
  - destruct s; [reflexivity|discriminate].
  - destruct (valid_finite _ _ _ Hvc) as (Hec & Hqc & _).
    destruct s.
    + rewrite sub_finite. apply binary_normalize_positive; [|lia].
      cbn [cond_Zopp].
      assert (0 < 2 ^ (eb - Z.min eb ec))%Z by (apply Z.pow_pos_nonneg; lia).
      assert (0 < 2 ^ (ec - Z.min eb ec))%Z by (apply Z.pow_pos_nonneg; lia).
      nia.
    + unfold F32.leb, SFleb, SFcompare in Hle.
      destruct (Z.compare_spec eb ec) as [E|E|E]; try discriminate.
      * subst ec.
        change (Pos.compare_cont Eq qb qc) with (qb ?= qc)%positive in Hle.
        destruct (Pos.compare_spec qb qc) as [Ec|Ec|Ec]; try discriminate.
        apply sub_positive with (e0 := eb); try lia.
        rewrite Z.sub_diag. lia.
      * apply sub_positive with (e0 := ec); try lia.
        rewrite Z.sub_diag.
        specialize (Hnorm ltac:(lia)).
        assert (2 <= 2 ^ (eb - ec))%Z.
        { change 2%Z with (2 ^ 1)%Z at 1. apply Z.pow_le_mono_r; lia. }
        nia.
Qed.

(** The argument of the logarithm is never negative. *)
Lemma log_argument_nonneg (c2 beta : F32.t) :
  F32.valid c2 = true -> F32.is_nan c2 = false ->
  F32.valid beta = true -> in_unit_interval beta = true ->
  (F32.zero <=? beta - clamp_c2 c2 beta) = true.
Proof.
  intros Hvc Hn Hv Hu. unfold clamp_c2.
  destruct (unit_interval_cases beta Hu) as [[s ->]|(qb & eb & -> & Heb)].
  - destruct c2 as [sc|sc| |sc qc ec]; try discriminate;
      destruct s, sc; reflexivity.
  - destruct (S754_finite false qb eb <=? c2) eqn:Hle.
    + destruct (valid_finite _ _ _ Hv) as (He & Hq & Hnorm).
      destruct (Z_le_gt_dec (Z.pos qb) 1000) as [Hs|Hs];
        [destruct (Z.eq_dec eb (-149)) as [->|Hne]|].
      * exact (small_subnormal qb Hs).
      * destruct (mul_f0_999_below qb eb Hv Heb ltac:(lia))
          as [->|(q2 & e2 & -> & H1 & H2 & H3)]; [reflexivity|].
        apply ltb_leb. apply sub_positive with (e0 := (eb - 24)%Z); try lia;
          replace (eb - (eb - 24))%Z with 24%Z by lia; exact H3.
      * destruct (mul_f0_999_below qb eb Hv Heb ltac:(lia))
          as [->|(q2 & e2 & -> & H1 & H2 & H3)]; [reflexivity|].
        apply ltb_leb. apply sub_positive with (e0 := (eb - 24)%Z); try lia;
          replace (eb - (eb - 24))%Z with 24%Z by lia; exact H3.
    + apply ltb_leb. now apply sub_smaller_positive.
Qed.

(** It is positive when [beta] is a normal number. *)
Lemma log_argument_positive (c2 beta : F32.t) :
  F32.valid c2 = true -> F32.is_nan c2 = false ->
  F32.valid beta = true -> in_unit_interval beta = true ->
  (min_normal <=? beta) = true ->
  (F32.zero <? beta - clamp_c2 c2 beta) = true.
Proof.
  intros Hvc Hn Hv Hu Hmin. unfold clamp_c2.
  destruct (unit_interval_cases beta Hu) as [[s ->]|(qb & eb & -> & Heb)];
    [discriminate|].
  destruct (S754_finite false qb eb <=? c2) eqn:Hle;
    [|now apply sub_smaller_positive].
  destruct (valid_finite _ _ _ Hv) as (He & Hq & Hnorm).
  assert (Hbig : (1001 <= Z.pos qb \/ -149 < eb)%Z).
  { unfold F32.leb, SFleb, min_normal, SFcompare in Hmin.
    destruct (Z.compare_spec (-149) eb) as [E|E|E]; try discriminate.
    - change (Pos.compare_cont Eq 8388608 qb)
        with (8388608 ?= qb)%positive in Hmin.
      destruct (Pos.compare_spec 8388608 qb) as [Ec|Ec|Ec];
        try discriminate; left; lia.
    - right. lia. }
  destruct (mul_f0_999_below qb eb Hv Heb Hbig)
    as [->|(q2 & e2 & -> & H1 & H2 & H3)]; [reflexivity|].
  apply sub_positive with (e0 := (eb - 24)%Z); try lia;
    replace (eb - (eb - 24))%Z with 24%Z by lia; exact H3.
Qed.

Lemma mul_finite_not_nan (s : bool) (q : positive) (e : Z) (y : F32.t) :
  F32.is_nan y = false -> F32.is_nan (S754_finite s q e * y) = false.
Proof.
  intros H. destruct y as [sy|sy| |sy qy ey]; try discriminate;
    try reflexivity.
  unfold F32.mul, SFmul.
  eapply signed_not_nan. apply binary_round_aux_signed.
Qed.

Lemma add_finite_not_nan (s : bool) (q : positive) (e : Z) (y : F32.t) :
  F32.is_nan y = false -> F32.is_nan (S754_finite s q e + y) = false.
Proof.
  intros H. destruct y as [sy|sy| |sy qy ey]; try discriminate;
    try reflexivity.
  unfold F32.add, SFadd. apply binary_normalize_not_nan.
Qed.

(** *** The estimate *)

Lemma tabulated_coefficients_are_numbers (m : Z) :
  (1 <= m <= 6)%Z -> coefficients_are_numbers m = true.
Proof.
  intros H.
  assert (E : (m = 1 \/ m = 2 \/ m = 3 \/ m = 4 \/ m = 5 \/ m = 6)%Z) by lia.
  destruct E as [->|[->|[->|[->|[->| ->]]]]]; reflexivity.
Qed.

(** C7 (as amended).  For every [m >= 1] and every [beta] of [[0,1]], with
    [c2] replaced by [0.999f*beta] when [c2 >= beta], the argument
    [beta - c2] of the logarithm is never negative, and it is strictly
    positive when [beta] is a normal number ([beta >= 2^-126]); if [logf]
    returns a number there (not NaN), the estimate returned, after the
    clamp, lies in [[0,1]].  For [m > 6], whose coefficients come out of
    [logf] and [expf], this is under the proviso that they are numbers
    ([c0] finite, [c1] finite and not zero, [c2] not NaN); the tabulated
    coefficients of [m <= 6] are. *)
Theorem log_argument_and_estimate_range m beta :
  (1 <= m)%Z ->
  F32.valid beta = true -> in_unit_interval beta = true ->
  ((6 < m)%Z -> coefficients_are_numbers m = true) ->
  (F32.zero <=? rkaiser_log_argument m beta) = true /\
  ((min_normal <=? beta) = true ->
   (F32.zero <? rkaiser_log_argument m beta) = true) /\
  (F32.is_nan (logf (rkaiser_log_argument m beta)) = false ->
   exists rho_hat,
     rkaiser_approximate_rho m beta = Returned [] rho_hat /\
     in_unit_interval rho_hat = true).
Proof.
  intros Hm Hv Hu Hc.
  assert (Hnum : coefficients_are_numbers m = true).
  { destruct (Z_le_gt_dec m 6);
      [apply tabulated_coefficients_are_numbers|apply Hc]; lia. }
  clear Hc. unfold coefficients_are_numbers in Hnum.
  unfold rkaiser_log_argument, rkaiser_c2.
  assert (Hacc : rkaiser_approximate_rho m beta =
                 Returned [] (clamp01 (rkaiser_rho_unclamped m beta))).
  { unfold in_unit_interval in Hu. apply andb_true_iff in Hu.
    destruct Hu as [H0 H1].
    apply approximate_rho_accepts; [lia| |]; now apply leb_ltb_false. }
  rewrite Hacc. unfold rkaiser_rho_unclamped, rkaiser_log_argument, rkaiser_c2.
  destruct (rkaiser_coefficients m) as [[c0 c1] c2].
  repeat (apply andb_true_iff in Hnum; destruct Hnum as [Hnum ?]).
  assert (Hn2 : F32.is_nan c2 = false) by (destruct (F32.is_nan c2); easy).
  split; [now apply log_argument_nonneg|].
  split; [intros Hmin; now apply log_argument_positive|].
  intros Hlog. eexists. split; [reflexivity|].
  apply clamp01_range.
  destruct c0 as [s0|s0| |s0 q0 e0]; try discriminate;
    destruct c1 as [s1|s1| |s1 q1 e1]; try discriminate.
  - pose proof (mul_finite_not_nan s1 q1 e1 _ Hlog) as Hmul.
    destruct (S754_finite s1 q1 e1 * _) as [sp|sp| |sp qp ep];
      try discriminate; try reflexivity.
    destruct s0, sp; reflexivity.
  - apply add_finite_not_nan. now apply mul_finite_not_nan.
Qed.

(** *** Validation *)

Ltac chain_false H :=
  exfalso; unfold rejected_public, rejected_internal, rejected_estimate in H;
  repeat match goal with
         | E : (_ <? _)%Z = false |- _ => apply Z.ltb_ge in E
         end;
  intuition (try lia; congruence).

Lemma exact_rejects k m beta dt :
  rejected_public k m beta dt ->
  exists err, design_rkaiser_filter k m beta dt = Exited [] 1 err.
Proof.
  intros H. unfold design_rkaiser_filter, die.
  destruct (k <? 2)%Z eqn:Ek; [eauto|].
  destruct (m <? 1)%Z eqn:Em; [eauto|].
  destruct (beta <=? F32.zero) eqn:E0; [simpl; eauto|].
  destruct (beta >=? F32.one) eqn:E1; [simpl; eauto|].
  destruct (dt <? Lit.fm1) eqn:E2; [simpl; eauto|].
  destruct (dt >? F32.one) eqn:E3; [simpl; eauto|].
  chain_false H.
Qed.

Lemma approximate_rejects k m beta dt :
  rejected_public k m beta dt ->
  exists err, design_arkaiser_filter k m beta dt = Exited [] 1 err.
Proof.
  intros H. unfold design_arkaiser_filter, die.
  destruct (k <? 2)%Z eqn:Ek; [eauto|].
  destruct (m <? 1)%Z eqn:Em; [eauto|].
  destruct (beta <=? F32.zero) eqn:E0; [simpl; eauto|].
  destruct (beta >=? F32.one) eqn:E1; [simpl; eauto|].
  destruct (dt <? Lit.fm1) eqn:E2; [simpl; eauto|].
  destruct (dt >? F32.one) eqn:E3; [simpl; eauto|].
  chain_false H.
Qed.

Lemma internal_rejects k m beta dt :
  rejected_internal k m beta ->
  exists err, design_rkaiser_filter_internal k m beta dt = Exited [] 1 err.
Proof.
  intros H. unfold design_rkaiser_filter_internal, die.
  destruct (k <? 1)%Z eqn:Ek; [eauto|].
  destruct (m <? 1)%Z eqn:Em; [eauto|].
  destruct (beta <? F32.zero) eqn:E0; [simpl; eauto|].
  destruct (beta >? F32.one) eqn:E1; [simpl; eauto|].
  chain_false H.
Qed.

Lemma estimate_rejects m beta :
  rejected_estimate m beta ->
  exists err, rkaiser_approximate_rho m beta = Exited [] 0 err.
Proof.
  intros H. unfold rkaiser_approximate_rho, die.
  destruct (m <? 1)%Z eqn:Em; [eauto|].
  destruct (beta <? F32.zero) eqn:E0; [simpl; eauto|].
  destruct (beta >? F32.one) eqn:E1; [simpl; eauto|].
  chain_false H.
Qed.

(** C2 (as amended).  An input an entry point turns away ends the
    process: the entry point writes its message on stderr and calls
    [exit], with status 1 in the three design functions and status 0 in
    [rkaiser_approximate_rho]; nothing is returned to the caller.  The two
    public designs turn away [k < 2], [m < 1], [beta <= 0], [beta >= 1],
    [dt < -1] and [dt > 1]; the internal design turns away [k < 1],
    [m < 1], [beta < 0] and [beta > 1]; the estimator turns away [m < 1],
    [beta < 0] and [beta > 1]. *)
Theorem invalid_input_exits_the_process k m beta dt :
  (rejected_public k m beta dt ->
   (exists err, design_rkaiser_filter k m beta dt = Exited [] 1 err) /\
   (exists err, design_arkaiser_filter k m beta dt = Exited [] 1 err)) /\
  (rejected_internal k m beta ->
   exists err, design_rkaiser_filter_internal k m beta dt = Exited [] 1 err) /\
  (rejected_estimate m beta ->
   exists err, rkaiser_approximate_rho m beta = Exited [] 0 err).
Proof.
  repeat split.
  - now apply exact_rejects.
  - now apply approximate_rejects.
  - apply internal_rejects.
  - apply estimate_rejects.
Qed.

(** C8 (as amended).  The internal design validates [k >= 1], [m >= 1] and
    [beta] in the closed interval [[0,1]]: outside it ends the process
    with status 1.  It has no test on [dt]: every input that passes those
    three tests is designed, whatever [dt] is.  On the inputs the public
    exact design accepts, the public design returns the taps of the
    internal one. *)
Theorem internal_design_validation k m beta dt :
  (rejected_internal k m beta ->
   exists err, design_rkaiser_filter_internal k m beta dt = Exited [] 1 err) /\
  (accepted_internal k m beta ->
   terminated (design_rkaiser_filter_internal k m beta dt) = false) /\
  (accepted_public k m beta dt ->
   design_rkaiser_filter k m beta dt =
   (d <- design_rkaiser_filter_internal k m beta dt ;; ret (taps d))).
Proof.
  repeat split.
  - apply internal_rejects.
  - intros H. rewrite (internal_accepts k m beta dt H). reflexivity.
  - intros H. rewrite (exact_accepts k m beta dt H).
    rewrite (internal_accepts k m beta dt (accepted_public_internal _ _ _ _ H)).
    simpl. rewrite app_nil_r. reflexivity.
Qed.

(** C10.  On every input the public exact design accepts, it prints what
    the internal design prints and returns the tap vector of the internal
    design; the [rho] of the internal design is dropped. *)
Theorem exact_design_returns_internal_taps k m beta dt :
  accepted_public k m beta dt ->
  exists out d,
    design_rkaiser_filter_internal k m beta dt = Returned out d /\
    design_rkaiser_filter k m beta dt = Returned out (taps d).
Proof.
  intros H.
  rewrite (exact_accepts k m beta dt H).
  rewrite (internal_accepts k m beta dt (accepted_public_internal _ _ _ _ H)).
  do 2 eexists. split; reflexivity.
Qed.

(** *** Further properties of the code *)

(** **** Inputs that are not numbers *)

Lemma nan_ltb_l (x y : F32.t) : F32.is_nan x = true -> (x <? y) = false.
Proof. destruct x; try discriminate. reflexivity. Qed.

Lemma nan_ltb_r (x y : F32.t) : F32.is_nan y = true -> (x <? y) = false.
Proof.
  destruct y; try discriminate. intros _.
  destruct x as [s|s| |s q e]; try reflexivity; destruct s; reflexivity.
Qed.

Lemma nan_leb_l (x y : F32.t) : F32.is_nan x = true -> (x <=? y) = false.
Proof. destruct x; try discriminate. reflexivity. Qed.

Lemma nan_leb_r (x y : F32.t) : F32.is_nan y = true -> (x <=? y) = false.
Proof.
  destruct y; try discriminate. intros _.
  destruct x as [s|s| |s q e]; try reflexivity; destruct s; reflexivity.
Qed.

Lemma nan_accepted_public k m beta dt :
  (2 <= k)%Z -> (1 <= m)%Z ->
  F32.is_nan beta = true \/
  ((beta <=? F32.zero) = false /\ (beta >=? F32.one) = false) ->
  F32.is_nan dt = true \/
  ((dt <? Lit.fm1) = false /\ (dt >? F32.one) = false) ->
  accepted_public k m beta dt.
Proof.
  intros Hk Hm Hb Hd. unfold accepted_public.
  split; [exact Hk|]. split; [exact Hm|].
  assert (Hb' : (beta <=? F32.zero) = false /\ (beta >=? F32.one) = false).
  { destruct Hb as [Hb|Hb]; [|exact Hb].
    split; [now apply nan_leb_l|now apply nan_leb_r]. }
  assert (Hd' : (dt <? Lit.fm1) = false /\ (dt >? F32.one) = false).
  { destruct Hd as [Hd|Hd]; [|exact Hd].
    split; [now apply nan_ltb_l|now apply nan_ltb_r]. }
  tauto.
Qed.

(** X1.  The validation chains are written as tests for the invalid
    ranges ([_beta <= 0.0f || _beta >= 1.0f], [_dt < -1.0f || _dt > 1.0f]),
    and every comparison with a NaN is false: with [k >= 2] and [m >= 1], a
    [beta] that is NaN (or in range) and a [dt] that is NaN (or in range)
    are turned away by none of the four functions; each of them returns. *)
Theorem nan_passes_every_validation k m beta dt :
  (2 <= k)%Z -> (1 <= m)%Z ->
  F32.is_nan beta = true \/
  ((beta <=? F32.zero) = false /\ (beta >=? F32.one) = false) ->
  F32.is_nan dt = true \/
  ((dt <? Lit.fm1) = false /\ (dt >? F32.one) = false) ->
  terminated (design_rkaiser_filter k m beta dt) = false /\
  terminated (design_arkaiser_filter k m beta dt) = false /\
  terminated (design_rkaiser_filter_internal k m beta dt) = false /\
  terminated (rkaiser_approximate_rho m beta) = false.
Proof.
  intros Hk Hm Hb Hd.
  pose proof (nan_accepted_public k m beta dt Hk Hm Hb Hd) as Ha.
  pose proof (accepted_public_internal _ _ _ _ Ha) as Hi.
  rewrite (exact_accepts k m beta dt Ha).
  rewrite (approximate_accepts k m beta dt Ha).
  rewrite (internal_accepts k m beta dt Hi).
  destruct Hi as (_ & _ & H0 & H1).
  rewrite (approximate_rho_accepts m beta Hm H0 H1).
  repeat split.
Qed.

(** **** Exit statuses *)

Lemma public_dichotomy k m beta dt :
  rejected_public k m beta dt \/ accepted_public k m beta dt.
Proof.
  unfold rejected_public, accepted_public.
  destruct (Z_lt_ge_dec k 2); [tauto|].
  destruct (Z_lt_ge_dec m 1); [tauto|].
  destruct (beta <=? F32.zero); [tauto|].
  destruct (beta >=? F32.one); [tauto|].
  destruct (dt <? Lit.fm1); [tauto|].
  destruct (dt >? F32.one); [tauto|].
  right. repeat split; lia.
Qed.

Lemma internal_dichotomy k m beta :
  rejected_internal k m beta \/ accepted_internal k m beta.
Proof.
  unfold rejected_internal, accepted_internal.
  destruct (Z_lt_ge_dec k 1); [tauto|].
  destruct (Z_lt_ge_dec m 1); [tauto|].
  destruct (beta <? F32.zero); [tauto|].
  destruct (beta >? F32.one); [tauto|].
  right. repeat split; lia.
Qed.

(** X2.  Whatever the input, each of the three design functions either
    returns or ends the process with status 1, nothing printed on stdout,
    and a message of its own on stderr.  The tests of a callee never fire
    through a caller: the public exact design never ends with a message of
    the internal design, and no design ends with the message or the
    status 0 of [rkaiser_approximate_rho]. *)
Theorem designs_exit_only_with_status_1 k m beta dt :
  (terminated (design_rkaiser_filter k m beta dt) = false \/
   exists err,
     design_rkaiser_filter k m beta dt = Exited [] 1 err /\
     String.prefix "error: design_rkaiser_filter()," err = true) /\
  (terminated (design_arkaiser_filter k m beta dt) = false \/
   exists err,
     design_arkaiser_filter k m beta dt = Exited [] 1 err /\
     String.prefix "error: design_arkaiser_filter()," err = true) /\
  (terminated (design_rkaiser_filter_internal k m beta dt) = false \/
   exists err,
     design_rkaiser_filter_internal k m beta dt = Exited [] 1 err /\
     String.prefix "error: design_rkaiser_filter_internal():" err = true).
Proof.
  split; [|split].
  - destruct (public_dichotomy k m beta dt) as [H|H].
    + right. unfold design_rkaiser_filter, die.
      destruct (k <? 2)%Z eqn:Ek; [eexists; split; reflexivity|].
      destruct (m <? 1)%Z eqn:Em; [eexists; split; reflexivity|].
      destruct (beta <=? F32.zero) eqn:E0; [eexists; split; reflexivity|].
      destruct (beta >=? F32.one) eqn:E1; [eexists; split; reflexivity|].
      destruct (dt <? Lit.fm1) eqn:E2; [eexists; split; reflexivity|].
      destruct (dt >? F32.one) eqn:E3; [eexists; split; reflexivity|].
      chain_false H.
    + left. now rewrite (exact_accepts k m beta dt H).
  - destruct (public_dichotomy k m beta dt) as [H|H].
    + right. unfold design_arkaiser_filter, die.
      destruct (k <? 2)%Z eqn:Ek; [eexists; split; reflexivity|].
      destruct (m <? 1)%Z eqn:Em; [eexists; split; reflexivity|].
      destruct (beta <=? F32.zero) eqn:E0; [eexists; split; reflexivity|].
      destruct (beta >=? F32.one) eqn:E1; [eexists; split; reflexivity|].
      destruct (dt <? Lit.fm1) eqn:E2; [eexists; split; reflexivity|].
      destruct (dt >? F32.one) eqn:E3; [eexists; split; reflexivity|].
      chain_false H.
    + left. now rewrite (approximate_accepts k m beta dt H).
  - destruct (internal_dichotomy k m beta) as [H|H].
    + right. unfold design_rkaiser_filter_internal, die.
      destruct (k <? 1)%Z eqn:Ek; [eexists; split; reflexivity|].
      destruct (m <? 1)%Z eqn:Em; [eexists; split; reflexivity|].
      destruct (beta <? F32.zero) eqn:E0; [eexists; split; reflexivity|].
      destruct (beta >? F32.one) eqn:E1; [eexists; split; reflexivity|].
      chain_false H.
    + left. now rewrite (internal_accepts k m beta dt H).
Qed.

(** **** The filter length *)

Lemma filter_length_odd k m :
  exists j, (0 <= j < 2 ^ 31)%Z /\ filter_length k m = (2 * j + 1)%Z.
Proof.
  unfold filter_length, uint32.
  exists ((k * m) mod 2 ^ 31)%Z.
  pose proof (Z.mod_pos_bound (k * m) (2 ^ 31) ltac:(lia)) as B.
  split; [exact B|].
  pose proof (Z.div_mod (k * m) (2 ^ 31) ltac:(lia)) as D.
  symmetry. apply Z.mod_unique with (q := ((k * m) / 2 ^ 31)%Z); lia.
Qed.

Lemma filter_length_range k m : (1 <= filter_length k m < 2 ^ 32)%Z.
Proof. destruct (filter_length_odd k m) as (j & Hj & ->). lia. Qed.

(** X3.  [unsigned int n = 2*_k*_m+1] is odd whether or not the product
    wraps around, so it is never 0: on every input the public designs
    accept, both return vectors of the same odd, non-zero number of
    taps. *)
Theorem returned_vector_has_odd_length k m beta dt :
  accepted_public k m beta dt ->
  exists out exact approx,
    design_rkaiser_filter k m beta dt = Returned out exact /\
    design_arkaiser_filter k m beta dt = Returned [] approx /\
    List.length exact = List.length approx /\
    Z.of_nat (List.length exact) = filter_length k m /\
    Z.odd (filter_length k m) = true /\
    (1 <= filter_length k m < 2 ^ 32)%Z.
Proof.
  intros H.
  rewrite (exact_accepts k m beta dt H), (approximate_accepts k m beta dt H).
  do 3 eexists. split; [reflexivity|]. split; [reflexivity|].
  rewrite !normalize_length.
  pose proof (filter_length_range k m) as R.
  split; [reflexivity|]. split; [apply Z2Nat.id; lia|].
  split; [|exact R].
  destruct (filter_length_odd k m) as (j & _ & ->).
  rewrite Z.add_comm, Z.odd_add_mul_2. reflexivity.
Qed.

(** **** The search, round by round *)

(** The outcome of a round that does not break, with the line it prints. *)
Lemma search_round_line k m beta dt st :
  breaks k m beta dt st = false ->
  let x1 := midpoint st in
  let y1 := objective k m beta dt x1 in
  let xh := round_vertex k m beta dt st in
  exists h,
    search_round k m beta dt st =
    Continue
      (if xh >? x1
       then SearchState x1 y1 (x2 st) (y2 st) xh (p st + 1) h
       else SearchState (x0 st) (y0 st) x1 y1 xh (p st + 1) h)
      (TraceLine (p st + 1) xh
                 (F32.of_Z 20 * log10f (objective k m beta dt xh))).
Proof.
  unfold breaks, round_denominator, round_vertex, objective, search_round.
  destruct (design_rkaiser_filter_internal_isi k m beta dt (midpoint st))
    as [y1 h]. simpl fst. intros ->. cbv zeta.
  destruct (design_rkaiser_filter_internal_isi k m beta dt _) as [yh h'].
  simpl fst. destruct (_ >? _); eauto.
Qed.

Lemma search_init_fields k m beta dt rho_hat :
  let st := search_init k m beta dt rho_hat in
  x0 st = rho_hat * Lit.f0_9 /\
  y0 st = objective k m beta dt (rho_hat * Lit.f0_9) /\
  x2 st = rho_hat * Lit.f1_1 /\
  y2 st = objective k m beta dt (rho_hat * Lit.f1_1) /\
  x_hat st = rho_hat /\ p st = 0%Z.
Proof.
  unfold search_init, objective.
  destruct (design_rkaiser_filter_internal_isi k m beta dt (rho_hat * Lit.f0_9))
    as [a0 h0].
  destruct (design_rkaiser_filter_internal_isi k m beta dt (rho_hat * Lit.f1_1))
    as [a2 h2].
  cbn. repeat split.
Qed.

Lemma search_loop_bracket k m beta dt n : forall st,
  y0 st = objective k m beta dt (x0 st) ->
  y2 st = objective k m beta dt (x2 st) ->
  let st' := fst (search_loop k m beta dt n st) in
  y0 st' = objective k m beta dt (x0 st') /\
  y2 st' = objective k m beta dt (x2 st').
Proof.
  induction n as [|n IH]; intros st H0 H2; cbv zeta; [now split|].
  cbn [search_loop].
  destruct (breaks k m beta dt st) eqn:Eb.
  - destruct (search_round_break _ _ _ _ _ Eb) as [h ->]. now split.
  - destruct (search_round_line _ _ _ _ _ Eb) as (h & Er).
    cbv zeta in Er. rewrite Er.
    set (st1 := if _ >? _ then _ else _) in *.
    assert (H : y0 st1 = objective k m beta dt (x0 st1) /\
                y2 st1 = objective k m beta dt (x2 st1))
      by (subst st1; destruct (_ >? _); now split).
    destruct H as [A B]. specialize (IH st1 A B). cbv zeta in IH.
    destruct (search_loop k m beta dt n st1) as [st2 out]. exact IH.
Qed.

(** X4.  The loop keeps [y0] and [y2] in step with the ends of the
    bracket: after any number of rounds, started from the initial bracket
    of any estimate, [y0] is the objective (the ISI of the filter
    designed) at [x0] and [y2] the objective at [x2].  An end is only ever
    replaced together with its value, by the midpoint and the value
    computed there in the same round. *)
Theorem bracket_values_are_never_stale k m beta dt rho_hat n :
  let st := fst (search_loop k m beta dt n (search_init k m beta dt rho_hat)) in
  y0 st = objective k m beta dt (x0 st) /\
  y2 st = objective k m beta dt (x2 st).
Proof.
  cbv zeta. apply search_loop_bracket.
  - destruct (search_init_fields k m beta dt rho_hat) as (A & B & _).
    now rewrite A, B.
  - destruct (search_init_fields k m beta dt rho_hat) as (_ & _ & A & B & _).
    now rewrite A, B.
Qed.

Lemma search_loop_trace k m beta dt n : forall st,
  let st' := fst (search_loop k m beta dt n st) in
  let out := snd (search_loop k m beta dt n st) in
  (forall j, (j < List.length out)%nat ->
     tl_iter (nth j out no_line) = (p st + 1 + Z.of_nat j)%Z /\
     tl_isi_dB (nth j out no_line) =
     F32.of_Z 20 * log10f (objective k m beta dt (tl_rho (nth j out no_line)))) /\
  x_hat st' = match out with
              | [] => x_hat st
              | _ => tl_rho (last out no_line)
              end.
Proof.
  induction n as [|n IH]; intros st; cbv zeta.
  - simpl. split; [intros j Hj; inversion Hj|reflexivity].
  - cbn [search_loop].
    destruct (breaks k m beta dt st) eqn:Eb.
    + destruct (search_round_break _ _ _ _ _ Eb) as [h ->].
      simpl. split; [intros j Hj; inversion Hj|reflexivity].
    + destruct (search_round_line _ _ _ _ _ Eb) as (h & Er).
      cbv zeta in Er. rewrite Er.
      set (st1 := if _ >? _ then _ else _) in *.
      assert (Hp : p st1 = (p st + 1)%Z)
        by (subst st1; destruct (_ >? _); reflexivity).
      assert (Hx : x_hat st1 = round_vertex k m beta dt st)
        by (subst st1; destruct (_ >? _); reflexivity).
      specialize (IH st1). cbv zeta in IH.
      destruct (search_loop k m beta dt n st1) as [st2 out].
      cbn [fst snd] in IH |- *. destruct IH as [I1 I2]. split.
      * intros [|j] Hj.
        -- cbn [nth tl_iter tl_isi_dB tl_rho]. split; [lia|reflexivity].
        -- cbn [nth]. cbn [List.length] in Hj.
           destruct (I1 j ltac:(lia)) as [A B]. split; [lia|exact B].
      * rewrite I2. destruct out as [|l out]; [exact Hx|reflexivity].
Qed.

(** X5.  What the internal design prints ([DEBUG_RKAISER] is 1) follows
    the search: on every input it accepts, line [j] (counted from 0)
    carries the round number [j+1], and its [isi] field is
    [20*log10f] of the objective at the [rho] it shows.  The taps returned
    are designed at the [rho] of the last line printed, and at the
    estimate when nothing is printed. *)
Theorem printed_lines_follow_the_search k m beta dt :
  accepted_internal k m beta ->
  let rho_hat := clamp01 (rkaiser_rho_unclamped m beta) in
  let out := snd (rkaiser_search k m beta dt rho_hat) in
  exists d,
    design_rkaiser_filter_internal k m beta dt = Returned out d /\
    taps d = normalize k (filter_length k m)
               (kaiser_taps k m beta dt
                  match out with
                  | [] => rho_hat
                  | _ => tl_rho (last out no_line)
                  end) /\
    forall j, (j < List.length out)%nat ->
      tl_iter (nth j out no_line) = (Z.of_nat j + 1)%Z /\
      tl_isi_dB (nth j out no_line) =
      F32.of_Z 20 *
      log10f (objective k m beta dt (tl_rho (nth j out no_line))).
Proof.
  intros Ha. cbv zeta.
  rewrite (internal_accepts k m beta dt Ha).
  eexists. split; [reflexivity|]. cbn [taps].
  unfold rkaiser_search.
  pose proof (search_loop_trace k m beta dt (Z.to_nat pmax)
                (search_init k m beta dt
                   (clamp01 (rkaiser_rho_unclamped m beta)))) as H.
  cbv zeta in H. destruct H as [H1 H2].
  destruct (search_init_fields k m beta dt
              (clamp01 (rkaiser_rho_unclamped m beta)))
    as (_ & _ & _ & _ & Hx & Hp).
  rewrite Hx in H2. rewrite Hp in H1. split.
  - rewrite H2. reflexivity.
  - intros j Hj. destruct (H1 j Hj) as [A B]. split; [lia|exact B].
Qed.

(** **** An estimate of zero *)

Lemma zero_bracket_breaks k m beta dt st s :
  x0 st = S754_zero s -> x2 st = S754_zero s ->
  y0 st = objective k m beta dt (S754_zero s) ->
  y2 st = objective k m beta dt (S754_zero s) ->
  is_finite (objective k m beta dt (S754_zero s)) = true ->
  breaks k m beta dt st = true.
Proof.
  intros A0 A2 B0 B2 Hf.
  unfold breaks, round_denominator, midpoint.
  rewrite A0, A2, B0, B2.
  assert (Hm : Lit.f0_5 * (S754_zero s + S754_zero s) = S754_zero s)
    by (destruct s; reflexivity).
  rewrite Hm. fold (objective k m beta dt (S754_zero s)).
  unfold denominator.
  assert (Hd : S754_zero s - S754_zero s = S754_zero false)
    by (destruct s; reflexivity).
  rewrite Hd.
  destruct (objective k m beta dt (S754_zero s)) as [sy|sy| |sy qy ey];
    try discriminate; destruct sy; reflexivity.
Qed.

(** X6.  When the estimate is zero (the clamp at 0 fired, as it does for
    a very small [beta]) the bracket [0.9f*0, 1.1f*0] has no width: if
    the objective at 0 is finite, the denominator of the first round is 0,
    the loop breaks at once and nothing is printed.  The internal design
    then returns the taps designed at [rho = 0], and on an input the
    public designs accept the exact and the approximate design return
    the same taps. *)
Theorem zero_estimate_stops_the_search k m beta dt s :
  accepted_internal k m beta ->
  clamp01 (rkaiser_rho_unclamped m beta) = S754_zero s ->
  is_finite (objective k m beta dt (S754_zero s)) = true ->
  let h := normalize k (filter_length k m)
             (kaiser_taps k m beta dt (S754_zero s)) in
  design_rkaiser_filter_internal k m beta dt =
  Returned [] (Design h (S754_zero s)) /\
  (accepted_public k m beta dt ->
   design_rkaiser_filter k m beta dt = Returned [] h /\
   design_arkaiser_filter k m beta dt = Returned [] h).
Proof.
  intros Ha Hz Hf. cbv zeta.
  assert (Hb : breaks k m beta dt (search_init k m beta dt (S754_zero s)) = true).
  { destruct (search_init_fields k m beta dt (S754_zero s))
      as (A0 & B0 & A2 & B2 & _).
    assert (E0 : S754_zero s * Lit.f0_9 = S754_zero s) by (destruct s; reflexivity).
    assert (E2 : S754_zero s * Lit.f1_1 = S754_zero s) by (destruct s; reflexivity).
    rewrite E0 in A0, B0. rewrite E2 in A2, B2.
    now apply zero_bracket_breaks with (s := s). }
  assert (Hr : rkaiser_search k m beta dt (S754_zero s) =
               (fst (rkaiser_search k m beta dt (S754_zero s)), []) /\
               x_hat (fst (rkaiser_search k m beta dt (S754_zero s))) =
               S754_zero s).
  { unfold rkaiser_search. change (Z.to_nat pmax) with 10%nat.
    cbn [search_loop].
    destruct (search_round_break _ _ _ _ _ Hb) as [h ->].
    cbn [fst snd x_hat].
    destruct (search_init_fields k m beta dt (S754_zero s))
      as (_ & _ & _ & _ & Hx & _).
    split; [reflexivity|exact Hx]. }
  destruct Hr as [Hr Hx].
  split.
  - rewrite (internal_accepts k m beta dt Ha). rewrite Hz.
    rewrite Hr. cbn [fst snd]. rewrite Hr in Hx. cbn [fst] in Hx. rewrite Hx.
    reflexivity.
  - intros Hp.
    rewrite (exact_accepts k m beta dt Hp), (approximate_accepts k m beta dt Hp).
    rewrite Hz. rewrite Hr. cbn [fst snd]. rewrite Hr in Hx. cbn [fst] in Hx.
    rewrite Hx. split; reflexivity.
Qed.

(** **** An objective that is not a number *)

Lemma mul_nan_l (x y : F32.t) : F32.is_nan x = true -> x * y = S754_nan.
Proof. destruct x; try discriminate. reflexivity. Qed.

Lemma div_nan_r (x y : F32.t) : F32.is_nan y = true -> x / y = S754_nan.
Proof. destruct y; try discriminate. destruct x; reflexivity. Qed.

Lemma nan_round k m beta dt st :
  F32.is_nan (y0 st) = true ->
  breaks k m beta dt st = false /\
  round_vertex k m beta dt st = S754_nan.
Proof.
  intros Hn. unfold breaks, round_denominator, round_vertex.
  fold (objective k m beta dt (midpoint st)).
  assert (Hd : denominator (x0 st) (y0 st) (midpoint st)
                 (objective k m beta dt (midpoint st)) (x2 st) (y2 st)
               = S754_nan).
  { unfold denominator. rewrite (mul_nan_l (y0 st)) by exact Hn.
    reflexivity. }
  rewrite Hd. split; [reflexivity|].
  apply div_nan_r. reflexivity.
Qed.

Lemma nan_search_loop k m beta dt n : forall st,
  F32.is_nan (y0 st) = true ->
  let st' := fst (search_loop k m beta dt n st) in
  let out := snd (search_loop k m beta dt n st) in
  p st' = (p st + Z.of_nat n)%Z /\
  List.length out = n /\
  Forall (fun line => tl_rho line = S754_nan) out /\
  (n <> 0%nat -> x_hat st' = S754_nan).
Proof.
  induction n as [|n IH]; intros st Hn; cbv zeta.
  - simpl. repeat split; try lia. constructor.
  - cbn [search_loop].
    destruct (nan_round k m beta dt st Hn) as [Eb Ev].
    destruct (search_round_line _ _ _ _ _ Eb) as (h & Er).
    cbv zeta in Er. rewrite Er. rewrite Ev.
    rewrite (nan_ltb_r (midpoint st) S754_nan eq_refl).
    set (st1 := SearchState _ _ _ _ _ _ _).
    specialize (IH st1 Hn). cbv zeta in IH.
    destruct (search_loop k m beta dt n st1) as [st2 out] eqn:El.
    cbn [fst snd] in IH |- *. destruct IH as (I1 & I2 & I3 & I4).
    change (p st1) with (p st + 1)%Z in I1. cbn [List.length].
    repeat split; try lia.
    + constructor; [reflexivity|exact I3].
    + intros _. destruct n as [|n'].
      * simpl in El. inversion El. reflexivity.
      * apply I4. discriminate.
Qed.

(** X7.  The only test of the loop, [fabsf(t1) < 1e-9f], is false when
    [t1] is NaN.  If the objective at the lower end [0.9f*rho_hat] of the
    initial bracket is NaN, every denominator is NaN: the loop never
    breaks, it runs its 10 rounds and prints 10 lines whose [rho] is NaN
    (a NaN vertex always replaces the upper end, so the lower end and its
    NaN value stay), and the taps returned are those generated for
    [rho = NaN]. *)
Theorem nan_interference_is_not_detected k m beta dt :
  accepted_internal k m beta ->
  let rho_hat := clamp01 (rkaiser_rho_unclamped m beta) in
  F32.is_nan (objective k m beta dt (rho_hat * Lit.f0_9)) = true ->
  let run := rkaiser_search k m beta dt rho_hat in
  p (fst run) = pmax /\
  List.length (snd run) = 10%nat /\
  Forall (fun line => tl_rho line = S754_nan) (snd run) /\
  design_rkaiser_filter_internal k m beta dt =
  Returned (snd run)
    (Design (normalize k (filter_length k m)
               (kaiser_taps k m beta dt S754_nan))
            rho_hat).
Proof.
  intros Ha rho_hat Hn run.
  destruct (search_init_fields k m beta dt rho_hat) as (_ & B0 & _ & _ & _ & Hp).
  cbv zeta in B0, Hp.
  assert (Hy : F32.is_nan (y0 (search_init k m beta dt rho_hat)) = true)
    by (rewrite B0; exact Hn).
  pose proof (nan_search_loop k m beta dt (Z.to_nat pmax) _ Hy) as H.
  cbv zeta in H. fold (rkaiser_search k m beta dt rho_hat) in H. fold run in H.
  destruct H as (H1 & H2 & H3 & H4).
  rewrite Hp in H1.
  split; [exact H1|]. split; [exact H2|]. split; [exact H3|].
  rewrite (internal_accepts k m beta dt Ha). cbv zeta.
  fold rho_hat. fold run. rewrite H4 by discriminate. reflexivity.
Qed.

(** **** The energy and the factor of the normalisation *)

Lemma energy_step (h : list F32.t) (l : list nat) : forall e2,
  signed false e2 ->
  (forall i, In i l -> F32.is_nan (tap h i) = false) ->
  signed false (fold_left (fun e2 i => e2 + tap h i * tap h i) l e2).
Proof.
  induction l as [|i l IH]; intros e2 He Hl; [exact He|].
  cbn [fold_left]. apply IH.
  - apply add_signed; [exact He|]. apply square_signed. apply Hl. now left.
  - intros j Hj. apply Hl. now right.
Qed.

Lemma energy_signed (n : Z) (h : list F32.t) :
  (forall i, (i < Z.to_nat n)%nat -> F32.is_nan (tap h i) = false) ->
  signed false (energy n h).
Proof.
  intros H. unfold energy. apply energy_step; [reflexivity|].
  intros i Hi. apply in_seq in Hi. apply H. lia.
Qed.

(** X8.  [sqrtf] is never given a negative number.  For an over-sampling
    rate [1 <= k < 2^32] and [n] taps none of which is NaN, the sum of
    squares [e2] is [+0], a positive number or [+inf] (never negative,
    never [-0], never NaN), and so are [_k/e2] and the factor
    [sqrtf(_k/e2)] every tap is multiplied by. *)
Theorem scale_factor_is_a_number_and_not_negative k n h :
  (1 <= k < 2 ^ 32)%Z ->
  (forall i, (i < Z.to_nat n)%nat -> F32.is_nan (tap h i) = false) ->
  signed false (energy n h) /\
  signed false (F32.of_Z k / energy n h) /\
  signed false (F32.sqrt (F32.of_Z k / energy n h)).
Proof.
  intros Hk Hh.
  pose proof (energy_signed n h Hh) as He.
  destruct (of_Z_finite k Hk) as (q & e & ->).
  assert (Hd : signed false (S754_finite false q e / energy n h)).
  { destruct (energy n h) as [s2|s2| |s2 q2 e2]; simpl in He; try easy;
      subst s2; try reflexivity.
    apply (div_signed false false). }
  split; [exact He|]. split; [exact Hd|]. now apply sqrt_signed.
Qed.

Lemma all_zero_energy (h : list F32.t) (l : list nat) :
  (forall i, In i l -> is_zero (tap h i) = true) ->
  fold_left (fun e2 i => e2 + tap h i * tap h i) l F32.zero = F32.zero.
Proof.
  induction l as [|i l IH]; intros Hl; [reflexivity|].
  cbn [fold_left].
  assert (E : F32.zero + tap h i * tap h i = F32.zero).
  { specialize (Hl i ltac:(now left)).
    destruct (tap h i) as [s|s| |s q e]; try discriminate.
    destruct s; reflexivity. }
  rewrite E. apply IH. intros j Hj. apply Hl. now right.
Qed.

(** X9.  The division [_k/e2] is not guarded.  When the sum of squares is
    zero (all [n] taps are zero, or their squares underflow) the factor
    is infinite, and no tap returned is a finite number: each one is an
    infinity or NaN. *)
Theorem zero_energy_leaves_no_finite_tap k n h :
  (1 <= k < 2 ^ 32)%Z ->
  ((forall i, (i < Z.to_nat n)%nat -> is_zero (tap h i) = true) ->
   energy n h = F32.zero) /\
  (is_zero (energy n h) = true ->
   forall i, (i < Z.to_nat n)%nat ->
     is_finite (nth i (normalize k n h) F32.zero) = false).
Proof.
  intros Hk. split.
  - intros Hz. unfold energy. apply all_zero_energy.
    intros i Hi. apply in_seq in Hi. apply Hz. lia.
  - intros Hz i Hi. rewrite normalize_nth by exact Hi.
    destruct (of_Z_finite k Hk) as (q & e & ->).
    destruct (energy n h) as [s2|s2| |s2 q2 e2]; try discriminate.
    destruct s2; simpl; destruct (tap h i) as [s|s| |s q' e']; reflexivity.
Qed.

Lemma nan_energy (h : list F32.t) (l : list nat) : forall e2,
  F32.is_nan e2 = true \/ (exists j, In j l /\ F32.is_nan (tap h j) = true) ->
  F32.is_nan (fold_left (fun e2 i => e2 + tap h i * tap h i) l e2) = true.
Proof.
  induction l as [|i l IH]; intros e2 H.
  - destruct H as [H|(j & [] & _)]. exact H.
  - cbn [fold_left]. apply IH.
    destruct H as [H|(j & [->|Hj] & Hn)].
    + left. destruct e2; try discriminate. reflexivity.
    + left. destruct (tap h j); try discriminate. destruct e2; reflexivity.
    + right. eauto.
Qed.

(** X10.  One tap that is NaN among the [n] generated makes the sum of
    squares NaN, and with it the factor: every tap returned is NaN,
    whatever [k] and the other taps are. *)
Theorem one_nan_tap_makes_every_tap_nan k n h j :
  (j < Z.to_nat n)%nat -> F32.is_nan (tap h j) = true ->
  F32.is_nan (energy n h) = true /\
  forall i, (i < Z.to_nat n)%nat ->
    nth i (normalize k n h) F32.zero = S754_nan.
Proof.
  intros Hj Hn.
  assert (He : F32.is_nan (energy n h) = true).
  { unfold energy. apply nan_energy. right. exists j.
    split; [apply in_seq; lia|exact Hn]. }
  split; [exact He|].
  intros i Hi. rewrite normalize_nth by exact Hi.
  destruct (energy n h); try discriminate.
  destruct (F32.of_Z k); destruct (tap h i); reflexivity.
Qed.


(** **** The coefficients of the estimate *)

(** X11.  In the [default:] branch of the [switch] the conditional
    [_m <= 3 ? ... : ...] always takes its second alternative: the
    branch is reached for [m = 0] and [m >= 7] only, and [m = 0] has ended
    the process before.  For every [m >= 1] outside the table,
    [c1 = -0.0026685*m + 0.0835030]; the coefficients
    [0.0099427] and [0.0447250] are never used. *)
Theorem formula_slope_is_always_the_second_alternative m :
  (1 <= m)%Z -> ~ (1 <= m <= 6)%Z ->
  rkaiser_coefficients m =
  (F64.to_f32
     (Lit.d0_057918 * F64.of_f32 (logf (F32.of_Z m)) + Lit.d0_784313)%f64,
   F64.to_f32 (F64.opp Lit.d0_0026685 * F64.of_Z m + Lit.d0_0835030)%f64,
   F64.to_f32
     (Lit.d0_03373 +
      F64.of_f32
        (expf (F64.to_f32
                 (F64.opp Lit.d0_30382 * F64.of_Z m * F64.of_Z m
                  - Lit.d0_19451 * F64.of_Z m - Lit.d0_56171))))%f64).
Proof.
  intros H1 H6.
  assert (E : (m <=? 3)%Z = false) by (apply Z.leb_gt; lia).
  unfold rkaiser_coefficients.
  destruct m as [|[[q|q|]|[q|q|]|]|q]; try lia;
    try (destruct q; try lia); rewrite ?E; reflexivity.
Qed.

(** X12.  For the tabulated [m] (1 to 6), whose [c1] is positive: when
    [logf] returns [-inf], as the C library does for the argument 0 that
    [beta = 0] produces, the sum [c0 + c1*logf(...)] is [-inf] and the
    estimate returned is exactly 0; when it returns [+inf] the estimate
    is exactly 1. *)
Theorem estimate_at_an_infinite_logarithm m beta :
  (1 <= m <= 6)%Z ->
  (beta <? F32.zero) = false -> (beta >? F32.one) = false ->
  (logf (rkaiser_log_argument m beta) = S754_infinity true ->
   rkaiser_approximate_rho m beta = Returned [] F32.zero) /\
  (logf (rkaiser_log_argument m beta) = S754_infinity false ->
   rkaiser_approximate_rho m beta = Returned [] F32.one).
Proof.
  intros Hm H0 H1.
  rewrite (approximate_rho_accepts m beta ltac:(lia) H0 H1).
  unfold rkaiser_rho_unclamped.
  assert (E : (m = 1 \/ m = 2 \/ m = 3 \/ m = 4 \/ m = 5 \/ m = 6)%Z) by lia.
  destruct E as [->|[->|[->|[->|[->| ->]]]]];
    (split; intros ->; reflexivity).
Qed.

(** **** The side-lobe attenuation *)

Lemma mul_unit_not_negative (x y : F32.t) :
  in_unit_interval x = true -> in_unit_interval y = true ->
  not_negative (x * y).
Proof.
  intros Hx Hy.
  destruct (unit_interval_cases x Hx) as [[sx ->]|(qx & ex & -> & _)];
    destruct (unit_interval_cases y Hy) as [[sy ->]|(qy & ey & -> & _)];
    try exact I.
  apply (binary_round_aux_not_negative (Z.pos (qx * qy))). lia.
Qed.

Lemma div_not_negative (x y : F32.t) :
  not_negative x -> is_positive_finite y -> not_negative (x / y).
Proof.
  destruct x as [sx|sx| |sx qx ex], y as [sy|sy| |sy qy ey]; simpl; try easy.
  - intros -> [-> _]. reflexivity.
  - intros [-> _] [-> _].
    unfold SFdiv_core_binary.
    set (s := (ex - ey - _)%Z).
    set (m' := match s with Z.pos _ => Z.shiftl (Z.pos qx) s | 0%Z => Z.pos qx
                       | Z.neg _ => 0%Z end).
    assert (Hm : (0 <= m')%Z).
    { subst m'. destruct s; try lia. apply Z.shiftl_nonneg. lia. }
    pose proof (Z_div_mod m' (Z.pos qy) ltac:(lia)) as D.
    destruct (Z.div_eucl m' (Z.pos qy)) as [q r]. destruct D as [D1 D2].
    apply binary_round_aux_not_negative. nia.
Qed.

Lemma mul_not_negative (x y : F32.t) :
  not_negative x -> is_positive_finite y ->
  not_negative (x * y) /\ not_negative (y * x).
Proof.
  destruct x as [sx|sx| |sx qx ex], y as [sy|sy| |sy qy ey]; simpl; try easy.
  - intros -> [-> _]. split; reflexivity.
  - intros [-> _] [-> _]. split.
    + apply (binary_round_aux_not_negative (Z.pos (qx * qy))). lia.
    + apply (binary_round_aux_not_negative (Z.pos (qy * qx))). lia.
Qed.

Lemma add_positive (x y : F32.t) :
  not_negative x -> is_positive_finite y -> (F32.zero <? x + y) = true.
Proof.
  destruct x as [sx|sx| |sx qx ex], y as [sy|sy| |sy qy ey]; simpl; try easy.
  - intros _ [-> _]. reflexivity.
  - intros -> _. reflexivity.
  - intros [-> Hx] [-> Hy].
    apply binary_normalize_positive; [simpl; lia|lia].
Qed.

(** X13.  The side-lobe attenuation [As = 14.26f*del*n + 7.95f] handed
    to the tap generator is positive (a positive number or [+inf]) for
    every [beta] and every bandwidth correction [rho] of [[0,1]], hence
    for every estimate [rho_hat] that is a number, whatever [m] and the
    over-sampling rate [1 <= k < 2^32] are. *)
Theorem attenuation_is_positive k m beta rho :
  (1 <= k < 2 ^ 32)%Z ->
  in_unit_interval beta = true -> in_unit_interval rho = true ->
  (F32.zero <? kaiser_As k m beta rho) = true.
Proof.
  intros Hk Hb Hr. unfold kaiser_As.
  pose proof (of_Z_positive_finite k Hk) as Pk.
  pose proof (of_Z_positive_finite _ (filter_length_range k m)) as Pn.
  pose proof (mul_unit_not_negative rho beta Hr Hb) as G.
  pose proof (div_not_negative _ _ G Pk) as D.
  assert (P14 : is_positive_finite Lit.f14_26) by (split; [reflexivity|easy]).
  assert (P7 : is_positive_finite Lit.f7_95) by (split; [reflexivity|easy]).
  destruct (mul_not_negative _ _ D P14) as [_ M].
  destruct (mul_not_negative _ _ M Pn) as [N _].
  now apply add_positive.
Qed.

End Properties.

(** ** Runs on concrete inputs *)

Section Runs.
Local Existing Instance Sample.env.
Local Open Scope f32_scope.

Local Abbreviation b := Sample.beta_0_3.
Local Abbreviation b2 := Sample.beta_0_2.
Local Abbreviation d0 := Sample.dt_0.

Lemma sample_accepted_public : accepted_public 2 3 b d0.
Proof. unfold accepted_public. repeat split; try lia. Defined.

Lemma sample_accepted_public_2_1 : accepted_public 2 1 b2 d0.
Proof. unfold accepted_public. repeat split; try lia. Defined.

(** C1 (the code at the failing input).  For [k = 2], [m = 3],
    [beta = 0.3], [dt = 0] the internal design regenerates the final taps
    at the last vertex [x_hat] of the search, but the [rho] it hands back
    is the initial estimate [rho_hat], which differs from [x_hat]. *)
Theorem returned_rho_is_the_estimate_not_the_vertex :
  let rho_hat := clamp01 (rkaiser_rho_unclamped 3 b) in
  let run := rkaiser_search 2 3 b d0 rho_hat in
  design_rkaiser_filter_internal 2 3 b d0 =
  Returned (snd run)
    (Design (normalize 2 13 (kaiser_taps 2 3 b d0 (x_hat (fst run))))
            rho_hat) /\
  (rho_hat <? x_hat (fst run)) = true.
Proof.
  split.
  - apply (internal_accepts 2 3 b d0).
    apply accepted_public_internal with (dt := d0).
    exact sample_accepted_public.
  - vm_compute. reflexivity.
Qed.

(** C2 (counterexample).  [design_rkaiser_filter(1, 3, 0.3, 0.0)] does
    not return to its caller: it ends the process with [exit(1)]; and
    [rkaiser_approximate_rho(0, 0.3)] ends it with [exit(0)]. *)
Lemma invalid_k_ends_the_process :
  design_rkaiser_filter 1 3 b d0 =
  Exited [] 1 ("error: design_rkaiser_filter(), k must be at least 2" ++ nl)
  /\ terminated (design_rkaiser_filter 1 3 b d0) = true
  /\ rkaiser_approximate_rho 0 b =
     Exited [] 0
       ("error: rkaiser_approximate_rho(): m must be greater than 0" ++ nl).
Proof. repeat split. Qed.

Lemma invalid_input_exits_the_process_witness :
  rejected_public 1 3 b d0 /\
  rejected_internal 0 3 b /\
  rejected_estimate 0 b /\
  (exists err, design_rkaiser_filter 1 3 b d0 = Exited [] 1 err) /\
  (exists err, design_arkaiser_filter 1 3 b d0 = Exited [] 1 err) /\
  (exists err, design_rkaiser_filter_internal 0 3 b d0 = Exited [] 1 err) /\
  (exists err, rkaiser_approximate_rho 0 b = Exited [] 0 err).
Proof.
  assert (Hp : rejected_public 1 3 b d0) by (left; lia).
  assert (Hi : rejected_internal 0 3 b) by (left; lia).
  assert (He : rejected_estimate 0 b) by (left; lia).
  destruct (invalid_input_exits_the_process 1 3 b d0) as (P & _ & _).
  destruct (invalid_input_exits_the_process 0 3 b d0) as (_ & I & _).
  destruct (invalid_input_exits_the_process 2 0 b d0) as (_ & _ & E).
  destruct (P Hp) as (P1 & P2).
  exact (conj Hp (conj Hi (conj He
          (conj P1 (conj P2 (conj (I Hi) (E He))))))).
Defined.

(** C8 (counterexample).  The internal design accepts [dt = 2], outside
    [[-1,1]], and the end points [beta = 1] and [beta = 0] of the interval:
    it designs a filter and returns. *)
Lemma internal_accepts_any_dt_and_closed_beta :
  (F32.of_Z 2 >? F32.one) = true /\
  terminated (design_rkaiser_filter_internal 2 3 b (F32.of_Z 2)) = false /\
  terminated (design_rkaiser_filter_internal 2 3 F32.one d0) = false /\
  terminated (design_rkaiser_filter_internal 2 3 F32.zero d0) = false.
Proof. repeat split; vm_compute; reflexivity. Qed.

Lemma internal_design_validation_witness :
  rejected_internal 0 3 b /\
  accepted_internal 2 3 b /\
  accepted_public 2 3 b d0 /\
  (exists err, design_rkaiser_filter_internal 0 3 b d0 = Exited [] 1 err) /\
  terminated (design_rkaiser_filter_internal 2 3 b d0) = false /\
  design_rkaiser_filter 2 3 b d0 =
  (d <- design_rkaiser_filter_internal 2 3 b d0 ;; ret (taps d)).
Proof.
  assert (Hr : rejected_internal 0 3 b) by (left; lia).
  assert (Hp : accepted_public 2 3 b d0) by exact sample_accepted_public.
  assert (Ha : accepted_internal 2 3 b)
    by (unfold accepted_internal; repeat split; try lia).
  destruct (internal_design_validation 0 3 b d0) as (R & _ & _).
  destruct (internal_design_validation 2 3 b d0) as (_ & A & P).
  exact (conj Hr (conj Ha (conj Hp (conj (R Hr) (conj (A Ha) (P Hp)))))).
Defined.

Lemma exact_design_returns_internal_taps_witness :
  accepted_public 2 3 b d0 /\
  exists out d,
    design_rkaiser_filter_internal 2 3 b d0 = Returned out d /\
    design_rkaiser_filter 2 3 b d0 = Returned out (taps d).
Proof.
  split.
  - exact sample_accepted_public.
  - exact (exact_design_returns_internal_taps 2 3 b d0 sample_accepted_public).
Defined.






(** C9 (counterexample).  For [k = 2], [m = 1], [beta = 0.2], [dt = 0] the
    filter of the exact design has a larger interference (mse) than the
    filter of the approximate design. *)
Lemma exact_design_can_have_larger_isi :
  let rho_hat := clamp01 (rkaiser_rho_unclamped 1 b2) in
  let run := rkaiser_search 2 1 b2 d0 rho_hat in
  let exact := normalize 2 5 (kaiser_taps 2 1 b2 d0 (x_hat (fst run))) in
  let approx := normalize 2 5 (kaiser_taps 2 1 b2 d0 rho_hat) in
  design_rkaiser_filter 2 1 b2 d0 = Returned (snd run) exact /\
  design_arkaiser_filter 2 1 b2 d0 = Returned [] approx /\
  (fst (liquid_filter_isi approx 2 1) <? fst (liquid_filter_isi exact 2 1))
  = true.
Proof.
  split; [exact (exact_accepts 2 1 b2 d0 sample_accepted_public_2_1)|].
  split; [exact (approximate_accepts 2 1 b2 d0 sample_accepted_public_2_1)|].
  vm_compute. reflexivity.
Qed.

(** At the example of the specification, [k = 2], [m = 3], [beta = 0.3],
    [dt = 0], the sample instance gives the filter of the exact design the
    smaller interference. *)
Lemma exact_design_improves_at_the_example :
  let rho_hat := clamp01 (rkaiser_rho_unclamped 3 b) in
  let run := rkaiser_search 2 3 b d0 rho_hat in
  let exact := normalize 2 13 (kaiser_taps 2 3 b d0 (x_hat (fst run))) in
  let approx := normalize 2 13 (kaiser_taps 2 3 b d0 rho_hat) in
  design_rkaiser_filter 2 3 b d0 = Returned (snd run) exact /\
  design_arkaiser_filter 2 3 b d0 = Returned [] approx /\
  (fst (liquid_filter_isi exact 2 3) <? fst (liquid_filter_isi approx 2 3))
  = true.
Proof.
  split; [exact (exact_accepts 2 3 b d0 sample_accepted_public)|].
  split; [exact (approximate_accepts 2 3 b d0 sample_accepted_public)|].
  vm_compute. reflexivity.
Qed.

(** [beta = 2^-100]: the estimate is clamped to 0 and the first round
    breaks. *)
Lemma sample_accepted_public_tiny :
  accepted_public 2 1 (S754_finite false 8388608 (-123)) d0.
Proof. unfold accepted_public. repeat split; try lia. Defined.

Lemma designs_agree_when_the_first_round_breaks_witness :
  let beta := S754_finite false 8388608 (-123) in
  accepted_public 2 1 beta d0 /\
  breaks 2 1 beta d0
    (search_init 2 1 beta d0 (clamp01 (rkaiser_rho_unclamped 1 beta))) = true /\
  exists exact approx,
    design_rkaiser_filter 2 1 beta d0 = Returned [] exact /\
    design_arkaiser_filter 2 1 beta d0 = Returned [] approx /\
    exact = approx /\
    fst (liquid_filter_isi exact 2 1) = fst (liquid_filter_isi approx 2 1).
Proof.
  assert (Hb : breaks 2 1 (S754_finite false 8388608 (-123)) d0
                 (search_init 2 1 (S754_finite false 8388608 (-123)) d0
                    (clamp01 (rkaiser_rho_unclamped 1
                                (S754_finite false 8388608 (-123))))) = true)
    by (vm_compute; reflexivity).
  exact (conj sample_accepted_public_tiny
           (conj Hb (designs_agree_when_the_first_round_breaks 2 1 _ d0
                       sample_accepted_public_tiny Hb))).
Defined.

(** C7 (counterexample).  [beta = 0] is accepted by
    [rkaiser_approximate_rho], and there the argument of the logarithm is
    [0 - 0.999f*0 = 0], not a positive number; the same holds for the
    smallest subnormal [beta = 2^-149], where [0.999f*beta] rounds to
    [beta]. *)
Lemma log_argument_is_zero_at_beta_zero :
  in_unit_interval F32.zero = true /\
  terminated (rkaiser_approximate_rho 1 F32.zero) = false /\
  rkaiser_log_argument 1 F32.zero = F32.zero /\
  (F32.zero <? rkaiser_log_argument 1 F32.zero) = false /\
  in_unit_interval (S754_finite false 1 (-149)) = true /\
  (F32.zero <? rkaiser_log_argument 1 (S754_finite false 1 (-149))) = false.
Proof. repeat split. Qed.

Lemma log_argument_and_estimate_range_witness :
  ((1 <= 3)%Z /\ F32.valid b = true /\ in_unit_interval b = true /\
   (F32.zero <=? rkaiser_log_argument 3 b) = true /\
   (F32.zero <? rkaiser_log_argument 3 b) = true /\
   exists rho_hat,
     rkaiser_approximate_rho 3 b = Returned [] rho_hat /\
     in_unit_interval rho_hat = true) /\
  ((1 <= 8)%Z /\ coefficients_are_numbers 8 = true /\
   (F32.zero <=? rkaiser_log_argument 8 b) = true /\
   (F32.zero <? rkaiser_log_argument 8 b) = true /\
   exists rho_hat,
     rkaiser_approximate_rho 8 b = Returned [] rho_hat /\
     in_unit_interval rho_hat = true).
Proof.
  assert (Hv : F32.valid b = true) by reflexivity.
  assert (Hu : in_unit_interval b = true) by reflexivity.
  assert (Hmin : (min_normal <=? b) = true) by reflexivity.
  assert (Hc8 : coefficients_are_numbers 8 = true) by (vm_compute; reflexivity).
  assert (Hl3 : F32.is_nan (logf (rkaiser_log_argument 3 b)) = false)
    by (vm_compute; reflexivity).
  assert (Hl8 : F32.is_nan (logf (rkaiser_log_argument 8 b)) = false)
    by (vm_compute; reflexivity).
  assert (H3 : (1 <= 3)%Z) by lia.
  assert (H8 : (1 <= 8)%Z) by lia.
  assert (Hc3 : (6 < 3)%Z -> coefficients_are_numbers 3 = true)
    by (intros H; exfalso; lia).
  destruct (log_argument_and_estimate_range 3 b H3 Hv Hu Hc3)
    as (A3 & B3 & C3).
  destruct (log_argument_and_estimate_range 8 b H8 Hv Hu (fun _ => Hc8))
    as (A8 & B8 & C8).
  split.
  - exact (conj H3 (conj Hv (conj Hu (conj A3 (conj (B3 Hmin) (C3 Hl3)))))).
  - exact (conj H8 (conj Hc8 (conj A8 (conj (B8 Hmin) (C8 Hl8))))).
Defined.

Lemma search_stops_by_budget_or_break_witness :
  let rho_hat := clamp01 (rkaiser_rho_unclamped 3 b) in
  let start := search_init 2 3 b d0 rho_hat in
  let final := fst (rkaiser_search 2 3 b d0 rho_hat) in
  accepted_internal 2 3 b /\
  (p final = 8%Z /\ breaks 2 3 b d0 final = true) /\
  exists out d,
    design_rkaiser_filter_internal 2 3 b d0 = Returned out d /\
    out = snd (rkaiser_search 2 3 b d0 rho_hat) /\
    (0 <= p final <= pmax)%Z /\
    Z.of_nat (List.length out) = p final /\
    (p final = pmax \/ breaks 2 3 b d0 final = true) /\
    (forall j, (j < List.length out)%nat ->
       breaks 2 3 b d0 (fst (search_loop 2 3 b d0 j start)) = false).
Proof.
  intros rho_hat start final.
  assert (Ha : accepted_internal 2 3 b)
    by (unfold accepted_internal; repeat split; try lia).
  assert (Hp : p final = 8%Z) by (vm_compute; reflexivity).
  assert (Hb : breaks 2 3 b d0 final = true) by (vm_compute; reflexivity).
  pose proof (search_stops_by_budget_or_break 2 3 b d0 Ha) as T.
  cbv zeta in T.
  split; [exact Ha|]. split; [exact (conj Hp Hb)|exact T].
Defined.

Lemma search_follows_parabolic_interpolation_witness :
  let rho_hat := clamp01 (rkaiser_rho_unclamped 3 b) in
  let start := search_init 2 3 b d0 rho_hat in
  let st := fst (search_loop 2 3 b d0 1 start) in
  let st' := fst (search_loop 2 3 b d0 2 start) in
  let x1 := Lit.f0_5 * (x0 st + x2 st) in
  let y1 := objective 2 3 b d0 x1 in
  let t0 := y0 st * (x1 * x1 - x2 st * x2 st)
            + y1 * (x2 st * x2 st - x0 st * x0 st)
            + y2 st * (x0 st * x0 st - x1 * x1) in
  let t1 := y0 st * (x1 - x2 st) + y1 * (x2 st - x0 st)
            + y2 st * (x0 st - x1) in
  let xh := Lit.f0_5 * t0 / t1 in
  (F32.abs t1 <? Lit.f1e_9) = false /\
  (xh >? x1) = false /\
  p st = 1%Z /\
  x_hat st' = xh /\ p st' = (p st + 1)%Z /\
  x0 st' = x0 st /\ y0 st' = y0 st /\ x2 st' = x1 /\ y2 st' = y1.
Proof.
  intros rho_hat start st st' x1 y1 t0 t1 xh.
  assert (Hb : (F32.abs t1 <? Lit.f1e_9) = false) by (vm_compute; reflexivity).
  assert (Hc : (xh >? x1) = false) by (vm_compute; reflexivity).
  assert (Hp : p st = 1%Z) by (vm_compute; reflexivity).
  pose proof (search_follows_parabolic_interpolation 2 3 b d0 rho_hat 1) as T.
  cbv zeta in T. destruct T as (_ & _ & _ & T).
  destruct (T Hb) as (A & B & _ & C).
  exact (conj Hb (conj Hc (conj Hp (conj A (conj B (C Hc)))))).
Defined.

(** *** Runs for the further properties *)

Lemma nan_passes_every_validation_witness :
  (2 <= 2)%Z /\ (1 <= 3)%Z /\
  F32.is_nan S754_nan = true /\
  terminated (design_rkaiser_filter 2 3 S754_nan S754_nan) = false /\
  terminated (design_arkaiser_filter 2 3 S754_nan S754_nan) = false /\
  terminated (design_rkaiser_filter_internal 2 3 S754_nan S754_nan) = false /\
  terminated (rkaiser_approximate_rho 3 S754_nan) = false.
Proof.
  assert (H2 : (2 <= 2)%Z) by lia.
  assert (H3 : (1 <= 3)%Z) by lia.
  assert (Hn : F32.is_nan S754_nan = true) by reflexivity.
  pose proof (nan_passes_every_validation 2 3 S754_nan S754_nan H2 H3
                (or_introl Hn) (or_introl Hn)) as T.
  split; [exact H2|]. split; [exact H3|]. split; [exact Hn|exact T].
Defined.

Lemma returned_vector_has_odd_length_witness :
  accepted_public 2 3 b d0 /\
  filter_length 2 3 = 13%Z /\
  exists out exact approx,
    design_rkaiser_filter 2 3 b d0 = Returned out exact /\
    design_arkaiser_filter 2 3 b d0 = Returned [] approx /\
    List.length exact = List.length approx /\
    Z.of_nat (List.length exact) = filter_length 2 3 /\
    Z.odd (filter_length 2 3) = true /\
    (1 <= filter_length 2 3 < 2 ^ 32)%Z.
Proof.
  pose proof (returned_vector_has_odd_length 2 3 b d0 sample_accepted_public)
    as T.
  split; [exact sample_accepted_public|]. split; [reflexivity|exact T].
Defined.

Lemma printed_lines_follow_the_search_witness :
  let rho_hat := clamp01 (rkaiser_rho_unclamped 3 b) in
  let out := snd (rkaiser_search 2 3 b d0 rho_hat) in
  accepted_internal 2 3 b /\
  List.length out = 8%nat /\
  exists d,
    design_rkaiser_filter_internal 2 3 b d0 = Returned out d /\
    taps d = normalize 2 (filter_length 2 3)
               (kaiser_taps 2 3 b d0
                  match out with
                  | [] => rho_hat
                  | _ => tl_rho (last out no_line)
                  end) /\
    forall j, (j < List.length out)%nat ->
      tl_iter (nth j out no_line) = (Z.of_nat j + 1)%Z /\
      tl_isi_dB (nth j out no_line) =
      F32.of_Z 20 *
      log10f (objective 2 3 b d0 (tl_rho (nth j out no_line))).
Proof.
  intros rho_hat out.
  assert (Ha : accepted_internal 2 3 b)
    by (unfold accepted_internal; repeat split; try lia).
  assert (Hl : List.length out = 8%nat) by (vm_compute; reflexivity).
  pose proof (printed_lines_follow_the_search 2 3 b d0 Ha) as T.
  cbv zeta in T.
  split; [exact Ha|]. split; [exact Hl|exact T].
Defined.

Lemma zero_estimate_stops_the_search_witness :
  let beta := S754_finite false 8388608 (-123) in
  let h := normalize 2 (filter_length 2 1)
             (kaiser_taps 2 1 beta d0 (S754_zero false)) in
  accepted_public 2 1 beta d0 /\
  clamp01 (rkaiser_rho_unclamped 1 beta) = S754_zero false /\
  is_finite (objective 2 1 beta d0 (S754_zero false)) = true /\
  design_rkaiser_filter_internal 2 1 beta d0 =
  Returned [] (Design h (S754_zero false)) /\
  design_rkaiser_filter 2 1 beta d0 = Returned [] h /\
  design_arkaiser_filter 2 1 beta d0 = Returned [] h.
Proof.
  intros beta h.
  assert (Ha : accepted_internal 2 1 beta)
    by (unfold accepted_internal; repeat split; try lia).
  assert (Hz : clamp01 (rkaiser_rho_unclamped 1 beta) = S754_zero false)
    by (vm_compute; reflexivity).
  assert (Hf : is_finite (objective 2 1 beta d0 (S754_zero false)) = true)
    by (vm_compute; reflexivity).
  pose proof (zero_estimate_stops_the_search 2 1 beta d0 false Ha Hz Hf) as T.
  cbv zeta in T. destruct T as [T1 T2].
  specialize (T2 sample_accepted_public_tiny). destruct T2 as [T2 T3].
  split; [exact sample_accepted_public_tiny|]. split; [exact Hz|].
  split; [exact Hf|]. split; [exact T1|]. split; [exact T2|exact T3].
Defined.

Lemma nan_interference_is_not_detected_witness :
  let rho_hat := clamp01 (rkaiser_rho_unclamped 3 S754_nan) in
  let run := rkaiser_search 2 3 S754_nan d0 rho_hat in
  accepted_internal 2 3 S754_nan /\
  F32.is_nan (objective 2 3 S754_nan d0 (rho_hat * Lit.f0_9)) = true /\
  p (fst run) = pmax /\
  List.length (snd run) = 10%nat /\
  Forall (fun line => tl_rho line = S754_nan) (snd run) /\
  design_rkaiser_filter_internal 2 3 S754_nan d0 =
  Returned (snd run)
    (Design (normalize 2 (filter_length 2 3)
               (kaiser_taps 2 3 S754_nan d0 S754_nan))
            rho_hat).
Proof.
  intros rho_hat run.
  assert (Ha : accepted_internal 2 3 S754_nan)
    by (unfold accepted_internal; repeat split; try lia).
  assert (Hn : F32.is_nan (objective 2 3 S754_nan d0 (rho_hat * Lit.f0_9)) = true)
    by (vm_compute; reflexivity).
  pose proof (nan_interference_is_not_detected 2 3 S754_nan d0 Ha) as T.
  cbv zeta in T. specialize (T Hn).
  split; [exact Ha|]. split; [exact Hn|exact T].
Defined.

Lemma scale_factor_is_a_number_and_not_negative_witness :
  let h := [Lit.fm1; F32.zero; F32.one] in
  (1 <= 2 < 2 ^ 32)%Z /\
  (forall i, (i < Z.to_nat 3)%nat -> F32.is_nan (tap h i) = false) /\
  signed false (energy 3 h) /\
  signed false (F32.of_Z 2 / energy 3 h) /\
  signed false (F32.sqrt (F32.of_Z 2 / energy 3 h)).
Proof.
  intros h.
  assert (Hk : (1 <= 2 < 2 ^ 32)%Z) by lia.
  assert (Hh : forall i, (i < Z.to_nat 3)%nat -> F32.is_nan (tap h i) = false).
  { intros [|[|[|i]]] Hi; try reflexivity. simpl in Hi. lia. }
  pose proof (scale_factor_is_a_number_and_not_negative 2 3 h Hk Hh) as T.
  split; [exact Hk|]. split; [exact Hh|exact T].
Defined.

(** Three taps of [2^-77], [0] and [2^-77]: the squares underflow. *)
Lemma zero_energy_leaves_no_finite_tap_witness :
  let tiny := S754_finite false 8388608 (-100) in
  let h := [tiny; F32.zero; tiny] in
  let silent := [F32.zero; S754_zero true; F32.zero] in
  (1 <= 2 < 2 ^ 32)%Z /\
  energy 3 silent = F32.zero /\
  is_zero (energy 3 h) = true /\
  forall i, (i < Z.to_nat 3)%nat ->
    is_finite (nth i (normalize 2 3 h) F32.zero) = false.
Proof.
  intros tiny h silent.
  assert (Hk : (1 <= 2 < 2 ^ 32)%Z) by lia.
  assert (Hs : forall i, (i < Z.to_nat 3)%nat -> is_zero (tap silent i) = true).
  { intros [|[|[|i]]] Hi; try reflexivity. simpl in Hi. lia. }
  assert (Hz : is_zero (energy 3 h) = true) by (vm_compute; reflexivity).
  destruct (zero_energy_leaves_no_finite_tap 2 3 silent Hk) as [T1 _].
  destruct (zero_energy_leaves_no_finite_tap 2 3 h Hk) as [_ T2].
  split; [exact Hk|]. split; [exact (T1 Hs)|]. split; [exact Hz|exact (T2 Hz)].
Defined.

Lemma one_nan_tap_makes_every_tap_nan_witness :
  let h := [F32.one; S754_nan; F32.one] in
  (1 < Z.to_nat 3)%nat /\ F32.is_nan (tap h 1) = true /\
  F32.is_nan (energy 3 h) = true /\
  forall i, (i < Z.to_nat 3)%nat -> nth i (normalize 2 3 h) F32.zero = S754_nan.
Proof.
  intros h.
  assert (Hj : (1 < Z.to_nat 3)%nat) by (simpl; lia).
  assert (Hn : F32.is_nan (tap h 1) = true) by reflexivity.
  pose proof (one_nan_tap_makes_every_tap_nan 2 3 h 1 Hj Hn) as T.
  split; [exact Hj|]. split; [exact Hn|exact T].
Defined.


Lemma formula_slope_is_always_the_second_alternative_witness :
  (1 <= 7)%Z /\
  rkaiser_coefficients 7 =
  (F64.to_f32
     (Lit.d0_057918 * F64.of_f32 (logf (F32.of_Z 7)) + Lit.d0_784313)%f64,
   F64.to_f32 (F64.opp Lit.d0_0026685 * F64.of_Z 7 + Lit.d0_0835030)%f64,
   F64.to_f32
     (Lit.d0_03373 +
      F64.of_f32
        (expf (F64.to_f32
                 (F64.opp Lit.d0_30382 * F64.of_Z 7 * F64.of_Z 7
                  - Lit.d0_19451 * F64.of_Z 7 - Lit.d0_56171))))%f64).
Proof.
  assert (H1 : (1 <= 7)%Z) by lia.
  assert (H6 : ~ (1 <= 7 <= 6)%Z) by lia.
  split; [exact H1|].
  exact (formula_slope_is_always_the_second_alternative 7 H1 H6).
Defined.

(** [beta = 0]: the argument of the logarithm is 0 and the [logf] of the
    sample instance returns [-inf] there. *)
Lemma estimate_at_an_infinite_logarithm_witness :
  (1 <= 3 <= 6)%Z /\
  (F32.zero <? F32.zero) = false /\ (F32.zero >? F32.one) = false /\
  logf (rkaiser_log_argument 3 F32.zero) = S754_infinity true /\
  rkaiser_approximate_rho 3 F32.zero = Returned [] F32.zero.
Proof.
  assert (Hm : (1 <= 3 <= 6)%Z) by lia.
  assert (H0 : (F32.zero <? F32.zero) = false) by reflexivity.
  assert (H1 : (F32.zero >? F32.one) = false) by reflexivity.
  assert (Hl : logf (rkaiser_log_argument 3 F32.zero) = S754_infinity true)
    by (vm_compute; reflexivity).
  destruct (estimate_at_an_infinite_logarithm 3 F32.zero Hm H0 H1) as [T _].
  split; [exact Hm|]. split; [exact H0|]. split; [exact H1|].
  split; [exact Hl|exact (T Hl)].
Defined.

Lemma attenuation_is_positive_witness :
  (1 <= 2 < 2 ^ 32)%Z /\
  in_unit_interval b = true /\ in_unit_interval F32.one = true /\
  (F32.zero <? kaiser_As 2 3 b F32.one) = true.
Proof.
  assert (Hk : (1 <= 2 < 2 ^ 32)%Z) by lia.
  assert (Hb : in_unit_interval b = true) by reflexivity.
  assert (Hr : in_unit_interval F32.one = true) by reflexivity.
  split; [exact Hk|]. split; [exact Hb|]. split; [exact Hr|].
  exact (attenuation_is_positive 2 3 b F32.one Hk Hb Hr).
Defined.

End Runs.
